(** * Package [vk]: the users.get client and the token registry

    A shallow embedding of [users.go] (the [UsersGet] call, its
    [GetUserByIntID] wrapper and the JSON envelope types) and of the
    registry file that declares [VkAppsPull], [RegisterVkApps] and
    [addToken].

    Conventions of the embedding:
    - Go [int] and [int64] are [Z]; no arithmetic is done on them here.
    - A Go slice is [slice A = option (list A)]: [None] is the [nil]
      slice, [Some l] a non-nil slice with elements [l].
    - A Go [error] interface value is [option error], [None] being [nil].
    - Effects (log lines, the HTTP GET, closing the body) are recorded in
      an event trace by a small writer monad [IO].
    - A panic is an [outcome], not a Rocq failure.
    - Maps and mutexes are heap objects reached through references, so
      that the copy of a struct made by a value receiver still aliases
      them. *)

From Stdlib Require Import ZArith Lia.
From stdpp Require Import base option list strings pretty gmap fin_maps.

Local Open Scope string_scope.
Local Open Scope Z_scope.

(** ** Go values *)

Definition slice (A : Type) : Type := option (list A).

Definition elems {A} (s : slice A) : list A := default [] s.

Definition len {A} (s : slice A) : Z := Z.of_nat (length (elems s)).

(** [strings.Join(elems, sep)]. *)
Fixpoint strings_Join (l : list string) (sep : string) : string :=
  match l with
  | [] => ""
  | [x] => x
  | x :: rest => x +:+ sep +:+ strings_Join rest sep
  end.

(** [strconv.FormatInt(i, 10)]. *)
Definition strconv_FormatInt10 (i : Z) : string := pretty i.

(** What a call leaves behind: it returns, or it panics with a value. *)
Inductive outcome (A : Type) : Type :=
| Returns (a : A)
| Panics (v : string).
Arguments Returns {A} a.
Arguments Panics {A} v.

(** ** Declarations of package [vk] made outside the two source files *)

Class PackageDecls : Type := {
  (** [EpochTime], the type of [PlatformInfo.Time], and its zero value. *)
  EpochTime : Type;
  EpochTime_zero : EpochTime;
  (** [AccessToken], the values of the token registry. *)
  AccessToken : Type;
}.

(** Modelled from the spec: [ElemInSlice] is called by [UsersGet] but
    declared outside the two source files.  The spec speaks of name-case
    values "outside the fixed six-value enumeration"; the helper is, as
    its name and its call [ElemInSlice(nameCase, NameCases)] say, the
    membership test of a string in a slice of strings, written as the
    loop over the slice that Go has to use for it. *)
Fixpoint ElemInSlice (elem : string) (s : list string) : bool :=
  match s with
  | [] => false
  | v :: rest => if decide (v = elem) then true else ElemInSlice elem rest
  end.

(** ** users.go: constants and types *)

Definition NameCases : list string := ["nom"; "gen"; "dat"; "acc"; "ins"; "abl"].

Definition FieldFirstName := "first_name".
Definition FieldLastName := "last_name".
Definition FieldScreenName := "screen_name".
Definition FieldNickname := "nickname".

Record RequestParam : Type := {
  Key : string;
  Value : string;
}.

Record vkError : Type := {
  Code : Z;
  Message : string;
  RequestParams : slice RequestParam;
}.

Record GeoPlace : Type := {
  GeoPlace_ID : Z;
  GeoPlace_Title : string;
}.

Record University : Type := {
  University_ID : Z;
  University_Country : Z;
  University_City : Z;
  University_Name : string;
  University_Faculty : Z;
  University_FacultyName : string;
  University_Chair : Z;
  University_ChairName : string;
  University_Graduation : Z;
  University_EducationForm : string;
  University_EducationStatus : string;
}.

Record School : Type := {
  School_ID : Z;
  School_Country : Z;
  School_City : Z;
  School_Name : string;
  School_YearFrom : Z;
  School_YearTo : Z;
  School_Class : string;
  School_TypeStr : string;
  School_Speciality : string;
}.

Record Relative : Type := {
  Relative_ID : Z;
  Relative_Type : string;
  Relative_Name : string;
}.

Section Users.
Context `{PackageDecls}.

Record PlatformInfo : Type := {
  Time : EpochTime;
  Platform : Z;
}.

Record UserInfo : Type := {
  ID : Z;
  FirstName : string;
  LastName : string;
  ScreenName : string;
  Nickname : string;
  Sex : Z;
  Domain : string;
  Birthdate : string;
  City : GeoPlace;
  Country : GeoPlace;
  Photo50 : string;
  Photo100 : string;
  Photo200 : string;
  PhotoMax : string;
  Photo200Orig : string;
  PhotoMaxOrig : string;
  HasMobile : bool;
  Online : bool;
  CanPost : bool;
  CanSeeAllPosts : bool;
  CanSeeAudio : bool;
  CanWritePrivateMessage : bool;
  Site : string;
  Status : string;
  LastSeen : PlatformInfo;
  CommonCount : Z;
  University_ : Z;
  UniversityName : string;
  Faculty : Z;
  FacultyName : Z;
  Graduation : Z;
  Relation : Z;
  Universities : slice University;
  Schools : slice School;
  Relatives : slice Relative;
}.

(** [Response], the envelope of users.get: [Error] is a pointer, [nil]
    when the body carries no (or a null) "error". *)
Record Response : Type := {
  Error : option vkError;
  Response_ : slice UserInfo;
}.

(** The zero values [GeoPlace{}], [PlatformInfo{}], [UserInfo{}], [Response{}]. *)
Definition GeoPlace_zero : GeoPlace := {| GeoPlace_ID := 0; GeoPlace_Title := "" |}.

Definition PlatformInfo_zero : PlatformInfo := {| Time := EpochTime_zero; Platform := 0 |}.

Definition UserInfo_zero : UserInfo := {|
  ID := 0; FirstName := ""; LastName := ""; ScreenName := ""; Nickname := "";
  Sex := 0; Domain := ""; Birthdate := "";
  City := GeoPlace_zero; Country := GeoPlace_zero;
  Photo50 := ""; Photo100 := ""; Photo200 := ""; PhotoMax := "";
  Photo200Orig := ""; PhotoMaxOrig := "";
  HasMobile := false; Online := false; CanPost := false;
  CanSeeAllPosts := false; CanSeeAudio := false; CanWritePrivateMessage := false;
  Site := ""; Status := ""; LastSeen := PlatformInfo_zero;
  CommonCount := 0; University_ := 0; UniversityName := "";
  Faculty := 0; FacultyName := 0; Graduation := 0; Relation := 0;
  Universities := None; Schools := None; Relatives := None;
|}.

Definition Response_zero : Response := {| Error := None; Response_ := None |}.

(** ** Errors

    The values that [UsersGet] can hand back in its [error] result. *)
Inductive error : Type :=
| errors_New (message : string)                 (* errors.New(message) *)
| errors_Wrap (cause : error) (message : string) (* errors.Wrap(cause, message) *)
| vkError_ptr (e : vkError)                     (* a *vkError, from the envelope *)
| foreign_error (text : string).                (* made by net/http or encoding/json *)

(** [func (err vkError) Error() string] *)
Definition vkError_Error (err : vkError) : string :=
  "Code=" +:+ pretty (Code err) +:+ ", len(request_params)="
    +:+ pretty (len (RequestParams err)) +:+ ", " +:+ Message err.

(** [func (err vkError) VkErrorCode() int] *)
Definition vkError_VkErrorCode (err : vkError) : Z := Code err.

(** The interface [VkError] seen from an [error] value: [e.(VkError)]
    succeeds on the values whose type has the method [VkErrorCode], and
    [VkErrorCode] gives what calling it returns. *)
Definition VkErrorCode (e : error) : option Z :=
  match e with
  | vkError_ptr err => Some (vkError_VkErrorCode err)
  | _ => None
  end.

End Users.

(** ** The world outside the package

    The standard library as far as [UsersGet] uses it (net/url,
    net/http, io/ioutil, encoding/json), and the [API] struct of the
    package with its method [getAPIURL], which are declared outside the
    two source files.  Every theorem below holds for all of these. *)

(** [*http.Response]: the status code, and the body as what
    [ioutil.ReadAll] makes of it (the bytes read and the read error). *)
Record HttpResponse : Type := {
  StatusCode : Z;
  Body : list Byte.byte * option error;
}.

Class Environment `{PackageDecls} : Type := {
  (** [context.Context]; only the logger looks at it. *)
  context_Context : Type;
  (** [*url.URL], with [Query()], the assignment to [RawQuery] and [String()]. *)
  URL : Type;
  URL_Query : URL → gmap string (list string);
  URL_with_RawQuery : URL → string → URL;
  URL_String : URL → string;
  (** [url.Values.Encode()]. *)
  Values_Encode : gmap string (list string) → string;
  (** [*http.Client], [http.DefaultClient] and [Get(url)]. *)
  http_Client : Type;
  http_DefaultClient : http_Client;
  Client_Get : http_Client → string → HttpResponse + error;
  (** [json.Unmarshal(data, &response)]: the envelope after the call and
      the error returned. *)
  json_Unmarshal : list Byte.byte → Response → Response * option error;
  (** [API]: its field [httpClient] ([None] is [nil]) and [getAPIURL]. *)
  API : Type;
  API_httpClient : API → option http_Client;
  API_getAPIURL : API → string → URL;
}.

(** ** Effects *)

Section Effects.
Context `{PackageDecls}.

Inductive LogArg : Type :=
| ArgString (s : string)
| ArgInt (i : Z)
| ArgResponse (r : Response)
| ArgError (e : error).

Inductive Event : Type :=
| Debugf (format : string) (args : list LogArg)  (* log.Debugf(c, format, args...) *)
| HttpGet (url : string)                        (* httpClient.Get(url) *)
| BodyClose.                                    (* resp.Body.Close() *)

(** A computation is the trace of events it performs and its result. *)
Definition IO (A : Type) : Type := list Event * A.

Definition trace {A} (m : IO A) : list Event := fst m.
Definition result {A} (m : IO A) : A := snd m.

#[export] Instance IO_ret : MRet IO := λ A a, ([], a).
#[export] Instance IO_bind : MBind IO := λ A B k m, ((fst m ++ fst (k (snd m)))%list, snd (k (snd m))).

Definition emit (e : Event) : IO unit := ([e], tt).

Definition log_Debugf (format : string) (args : list LogArg) : IO unit :=
  emit (Debugf format args).

(** [defer f()]: the event happens when the rest of the function is over. *)
Definition defer {A} (e : Event) (rest : IO A) : IO A :=
  a ← rest; emit e;; mret a.

(** A request is made exactly when [HttpGet] is in the trace. *)
Definition is_request (e : Event) : bool :=
  match e with HttpGet _ => true | _ => false end.

Definition no_request {A} (m : IO A) : Prop :=
  Forall (λ e, is_request e = false) (trace m).

End Effects.

(** ** users.go: functions *)

Section UsersGet.
Context `{Environment}.

(** [url.Values.Set(key, value)]: [v[key] = []string{value}]. *)
Definition Values_Set (v : gmap string (list string)) (key value : string)
  : gmap string (list string) :=
  <[key := [value]]> v.

Definition http_Get (client : http_Client) (url : string) : IO (HttpResponse + error) :=
  emit (HttpGet url);; mret (Client_Get client url).

Definition err_no_ids : error :=
  errors_New "you must pass at least one id or screen_name".

Definition err_name_case : error :=
  errors_New ("the only available name cases are: " +:+ strings_Join NameCases ", ").

(** [func (api *API) UsersGet(c, userIds, fields, nameCase) ([]UserInfo, error)] *)
Definition UsersGet (api : API) (c : context_Context)
    (userIds fields : slice string) (nameCase : string)
  : IO (slice UserInfo * option error) :=
  if decide (len userIds = 0) then mret (None, Some err_no_ids)
  else if negb (ElemInSlice nameCase NameCases) then mret (None, Some err_name_case)
  else
    let endpoint := API_getAPIURL api "users.get" in
    let query := URL_Query endpoint in
    let query := Values_Set query "user_ids" (strings_Join (elems userIds) ",") in
    query ← (if decide (len fields > 0) then
               let fieldsStr := strings_Join (elems fields) "," in
               log_Debugf ("VK fields: " +:+ fieldsStr) [];;
               mret (Values_Set query "fields" fieldsStr)
             else mret query);
    let query :=
      if decide (nameCase ≠ "") then Values_Set query "name_case" nameCase else query in
    let endpoint := URL_with_RawQuery endpoint (Values_Encode query) in
    let httpClient := default http_DefaultClient (API_httpClient api) in
    let url := URL_String endpoint in
    log_Debugf "url: %v" [ArgString url];;
    got ← http_Get httpClient url;
    match got with
    | inr err => mret (None, Some err)
    | inl resp =>
      defer BodyClose (
        let responseBody := fst (Body resp) in
        log_Debugf "VK response(status=%v) body: %v"
          [ArgInt (StatusCode resp); ArgString (String.string_of_list_byte responseBody)];;
        let '(response, err) := json_Unmarshal responseBody Response_zero in
        match err with
        | Some e => mret (None, Some (errors_Wrap e "Failed to unmarshal VK response"))
        | None =>
          log_Debugf "Unmarshalled VK response: %v" [ArgResponse response];;
          match Error response with
          | Some ve =>
            let err := vkError_ptr ve in
            log_Debugf "VK API returned error - pass it upstream: %v" [ArgError err];;
            mret (Response_ response, Some err)
          | None => mret (Response_ response, None)
          end
        end)
    end.

(** [func (api *API) GetUserByIntID(c, userID, nameCase, fields...) (UserInfo, error)] *)
Definition GetUserByIntID (api : API) (c : context_Context)
    (userID : Z) (nameCase : string) (fields : slice string)
  : IO (outcome (UserInfo * option error)) :=
  '(users, err) ← UsersGet api c (Some [strconv_FormatInt10 userID]) fields nameCase;
  match err with
  | Some e => mret (Returns (UserInfo_zero, Some e))
  | None =>
    if decide (len users ≠ 1) then
      mret (Panics ("len(users):" +:+ pretty (len users) +:+ " != 1"))
    else
      match elems users with
      | u :: _ => mret (Returns (u, None))
      | [] => mret (Panics "index out of range [0] with length 0")
      end
  end.

End UsersGet.

(** ** The token registry

    [VkAppsPull] holds a [sync.Locker] (an interface value) and two maps.
    All three are references to heap objects: the receiver of [addToken]
    is a copy of the struct, and the copy points to the same locker and
    the same maps.  The locker behaves as [sync.Mutex] does: [Lock] on a
    held locker waits, [Unlock] on a free one is a fatal error. *)

Section Registry.
Context `{PackageDecls}.

Definition loc : Type := nat.

Record Heap : Type := {
  lockers : gmap loc bool;                          (* true: held *)
  secret_maps : gmap loc (gmap string string);      (* map[string]string *)
  token_maps : gmap loc (gmap string AccessToken);  (* map[string]AccessToken *)
}.

(** Go has no dangling reference: a reference that exists points to an
    object.  The heap is read through these two functions, which take an
    object not written yet to be a free locker and an empty map. *)
Definition held (h : Heap) (l : loc) : bool := default false (lockers h !! l).

Definition tokens_at (h : Heap) (m : loc) : gmap string AccessToken :=
  default ∅ (token_maps h !! m).

Definition set_held (l : loc) (b : bool) (h : Heap) : Heap :=
  {| lockers := <[l := b]> (lockers h);
     secret_maps := secret_maps h;
     token_maps := token_maps h |}.

Definition set_tokens (m : loc) (t : gmap string AccessToken) (h : Heap) : Heap :=
  {| lockers := lockers h;
     secret_maps := secret_maps h;
     token_maps := <[m := t]> (token_maps h) |}.

Record VkAppsPull : Type := {
  locker : option loc;       (* nil interface: None *)
  callbackUrl : string;
  secrets : option loc;      (* nil map: None *)
  tokens : option loc;       (* nil map: None *)
}.

(** [VkAppsPull{}] *)
Definition VkAppsPull_zero : VkAppsPull :=
  {| locker := None; callbackUrl := ""; secrets := None; tokens := None |}.

(** The state of the package: the heap and the variable [vkAppsPull]. *)
Record Package : Type := {
  heap : Heap;
  vkAppsPull : VkAppsPull;
}.

(** [var vkAppsPull VkAppsPull = VkAppsPull{}] *)
Definition Package_init (h : Heap) : Package :=
  {| heap := h; vkAppsPull := VkAppsPull_zero |}.

(** [func RegisterVkApps(callbackUrl string, appSecrets map[string]string) {}] *)
Definition RegisterVkApps (callbackUrl : string) (appSecrets : option loc)
    (p : Package) : Package := p.

(** Any number of calls of [RegisterVkApps], one after the other. *)
Definition register_calls (calls : list (string * option loc)) (p : Package) : Package :=
  foldl (λ p call, RegisterVkApps call.1 call.2 p) p calls.

(** A statement on the heap returns, panics, or waits for a locker. *)
Inductive ran (A : Type) : Type :=
| Ok (a : A) (h : Heap)
| Panic (v : string) (h : Heap)
| Waits (h : Heap).
Arguments Ok {A} a h.
Arguments Panic {A} v h.
Arguments Waits {A} h.

Definition Go (A : Type) : Type := Heap → ran A.

#[export] Instance Go_ret : MRet Go := λ A a h, Ok a h.
#[export] Instance Go_bind : MBind Go := λ A B k m h,
  match m h with
  | Ok a h' => k a h'
  | Panic v h' => Panic v h'
  | Waits h' => Waits h'
  end.

Definition nil_dereference : string :=
  "runtime error: invalid memory address or nil pointer dereference".
Definition nil_map_write : string := "assignment to entry in nil map".
Definition unlock_of_unlocked : string := "sync: unlock of unlocked mutex".

(** [l.Lock()] *)
Definition Locker_Lock (l : option loc) : Go unit := λ h,
  match l with
  | None => Panic nil_dereference h
  | Some r => if held h r then Waits h else Ok tt (set_held r true h)
  end.

(** [l.Unlock()] *)
Definition Locker_Unlock (l : option loc) : Go unit := λ h,
  match l with
  | None => Panic nil_dereference h
  | Some r => if held h r then Ok tt (set_held r false h) else Panic unlock_of_unlocked h
  end.

(** [m[key] = value] on a [map[string]AccessToken] *)
Definition tokens_assign (m : option loc) (key : string) (value : AccessToken) : Go unit := λ h,
  match m with
  | None => Panic nil_map_write h
  | Some r => Ok tt (set_tokens r (<[key := value]> (tokens_at h r)) h)
  end.

(** [func (pull VkAppsPull) addToken(appID string, token AccessToken)] *)
Definition addToken (pull : VkAppsPull) (appID : string) (token : AccessToken) : Go unit :=
  Locker_Lock (locker pull);;
  tokens_assign (tokens pull) appID token;;
  Locker_Unlock (locker pull).

(** A sequence of registrations, one call after the other. *)
Fixpoint addTokens (pull : VkAppsPull) (regs : list (string * AccessToken)) : Go unit :=
  match regs with
  | [] => mret tt
  | (appID, token) :: rest => addToken pull appID token;; addTokens pull rest
  end.


(** *** Goroutines

    Several goroutines call [addToken] on (copies of) the same registry.
    Each is at one of the three statements of the body or has returned;
    the scheduler runs one statement of one goroutine at a time, and a
    goroutine that waits for the locker is not run. *)
Inductive pc : Type := AtLock | AtAssign | AtUnlock | AtReturn.

Record goroutine : Type := {
  g_appID : string;
  g_token : AccessToken;
  g_pc : pc;
}.

Definition at_pc (g : goroutine) (p : pc) : goroutine :=
  {| g_appID := g_appID g; g_token := g_token g; g_pc := p |}.

Definition statement (pull : VkAppsPull) (g : goroutine) : Go unit :=
  match g_pc g with
  | AtLock => Locker_Lock (locker pull)
  | AtAssign => tokens_assign (tokens pull) (g_appID g) (g_token g)
  | AtUnlock => Locker_Unlock (locker pull)
  | AtReturn => mret tt
  end.

Definition next_pc (p : pc) : pc :=
  match p with
  | AtLock => AtAssign
  | AtAssign => AtUnlock
  | AtUnlock => AtReturn
  | AtReturn => AtReturn
  end.

(** Between [Lock()] and [Unlock()]: the critical section. *)
Definition in_critical (g : goroutine) : bool :=
  match g_pc g with
  | AtAssign | AtUnlock => true
  | _ => false
  end.

Record config : Type := {
  c_heap : Heap;
  c_goroutines : list goroutine;
}.

Inductive sched (pull : VkAppsPull) : config → config → Prop :=
| sched_run (c : config) (i : nat) (g : goroutine) (h' : Heap) :
    c_goroutines c !! i = Some g →
    g_pc g ≠ AtReturn →
    statement pull g (c_heap c) = Ok tt h' →
    sched pull c {| c_heap := h';
                    c_goroutines := <[i := at_pc g (next_pc (g_pc g))]> (c_goroutines c) |}.

Inductive reachable (pull : VkAppsPull) (c0 : config) : config → Prop :=
| reachable_start : reachable pull c0 c0
| reachable_step (c c' : config) :
    reachable pull c0 c → sched pull c c' → reachable pull c0 c'.

(** All goroutines are about to call [Lock()] and the locker is free. *)
Definition starting (pull : VkAppsPull) (c : config) : Prop :=
  (∃ l, locker pull = Some l ∧ held (c_heap c) l = false) ∧
  Forall (λ g, g_pc g = AtLock) (c_goroutines c).

(** No two goroutines are in the critical section at once. *)
Definition mutual_exclusion (c : config) : Prop :=
  ∀ i j gi gj,
    c_goroutines c !! i = Some gi → c_goroutines c !! j = Some gj →
    in_critical gi = true → in_critical gj = true → i = j.

(** How many goroutines are in the critical section. *)
Definition count_critical (gs : list goroutine) : nat :=
  length (filter (λ g, in_critical g = true) gs).


End Registry.

Arguments Ok {_ A} a h.
Arguments Panic {_ A} v h.
Arguments Waits {_ A} h.

(** ** A small concrete world

    One instance of the two classes, on which the functions above run:
    an API whose client answers every GET with a fixed body, and a
    decoder that knows the three bodies below. *)

Module Sample.

#[export] Instance decls : PackageDecls :=
  {| EpochTime := Z; EpochTime_zero := 0; AccessToken := string |}.

Definition ivan : UserInfo := {|
  ID := 1; FirstName := "Ivan"; LastName := "Petrov"; ScreenName := "ivan";
  Nickname := ""; Sex := 2; Domain := "ivan"; Birthdate := "";
  City := {| GeoPlace_ID := 2; GeoPlace_Title := "Saint Petersburg" |};
  Country := {| GeoPlace_ID := 1; GeoPlace_Title := "Russia" |};
  Photo50 := ""; Photo100 := ""; Photo200 := ""; PhotoMax := "";
  Photo200Orig := ""; PhotoMaxOrig := "";
  HasMobile := true; Online := false; CanPost := false;
  CanSeeAllPosts := false; CanSeeAudio := false; CanWritePrivateMessage := false;
  Site := ""; Status := ""; LastSeen := {| Time := 1500000000; Platform := 7 |};
  CommonCount := 0; University_ := 0; UniversityName := "";
  Faculty := 0; FacultyName := 0; Graduation := 0; Relation := 0;
  Universities := None; Schools := None; Relatives := None;
|}.

Definition q : string := String (Ascii.ascii_of_nat 34) "".

Definition body_user : list Byte.byte :=
  String.list_byte_of_string
    ("{" +:+ q +:+ "response" +:+ q +:+ ":[{" +:+ q +:+ "id" +:+ q +:+ ":1}]}").

Definition body_error : list Byte.byte :=
  String.list_byte_of_string
    ("{" +:+ q +:+ "error" +:+ q +:+ ":{" +:+ q +:+ "error_code" +:+ q +:+ ":113}}").

Definition body_two : list Byte.byte :=
  String.list_byte_of_string
    ("{" +:+ q +:+ "response" +:+ q +:+ ":[{" +:+ q +:+ "id" +:+ q +:+ ":1},{"
       +:+ q +:+ "id" +:+ q +:+ ":1}]}").

Definition body_partial : list Byte.byte :=
  String.list_byte_of_string
    ("{" +:+ q +:+ "error" +:+ q +:+ ":{" +:+ q +:+ "error_code" +:+ q +:+ ":113},"
       +:+ q +:+ "response" +:+ q +:+ ":[{" +:+ q +:+ "id" +:+ q +:+ ":1}]}").

Definition body_html : list Byte.byte :=
  String.list_byte_of_string "<html>502 Bad Gateway</html>".

Definition invalid_user_id : vkError :=
  {| Code := 113; Message := "Invalid user id"; RequestParams := None |}.

Definition same (a b : list Byte.byte) : bool :=
  bool_decide (String.string_of_list_byte a = String.string_of_list_byte b).

Definition decode (data : list Byte.byte) (r : Response) : Response * option error :=
  if same data body_user then ({| Error := Error r; Response_ := Some [ivan] |}, None)
  else if same data body_two then ({| Error := Error r; Response_ := Some [ivan; ivan] |}, None)
  else if same data body_error then
    ({| Error := Some invalid_user_id; Response_ := Response_ r |}, None)
  else if same data body_partial then
    ({| Error := Some invalid_user_id; Response_ := Some [ivan] |}, None)
  else (r, Some (foreign_error "invalid character '<' looking for beginning of value")).

Definition encode (v : gmap string (list string)) : string :=
  strings_Join (map (λ kv, kv.1 +:+ "=" +:+ strings_Join kv.2 ",") (map_to_list v)) "&".

#[export] Instance env : Environment := {|
  context_Context := unit;
  URL := string * string;
  URL_Query := λ _, ∅;
  URL_with_RawQuery := λ u raw, (u.1, raw);
  URL_String := λ u, u.1 +:+ "?" +:+ u.2;
  Values_Encode := encode;
  http_Client := string → HttpResponse + error;
  http_DefaultClient := λ _, inr (foreign_error "dial tcp: no such host");
  Client_Get := λ client url, client url;
  json_Unmarshal := decode;
  API := option (string → HttpResponse + error);
  API_httpClient := λ api, api;
  API_getAPIURL := λ _ method, ("https://api.vk.com/method/" +:+ method, "");
|}.

(** An API whose client answers with [body], status 200. *)
Definition answering (body : list Byte.byte) : API :=
  Some (λ _, inl {| StatusCode := 200; Body := (body, None) |}).

(** An API without a client of its own: [http.DefaultClient] is used. *)
Definition offline : API := None.

(** A registry with a locker (free) and a tokens map, and its heap. *)
Definition pull : VkAppsPull :=
  {| locker := Some 0%nat; callbackUrl := ""; secrets := Some 1%nat; tokens := Some 2%nat |}.

Definition heap0 : Heap :=
  {| lockers := {[ 0%nat := false ]};
     secret_maps := {[ 1%nat := ∅ ]};
     token_maps := {[ 2%nat := ∅ ]} |}.

(** Three registrations, two of them for the same application. *)
Definition token (s : string) : AccessToken := s.

Definition registrations : list (string * AccessToken) :=
  [("app1", token "t1"); ("app2", token "t2"); ("app1", token "t3")].

(** Two goroutines about to register a token for the same application. *)
Definition two_callers : config :=
  {| c_heap := heap0;
     c_goroutines := [ {| g_appID := "app"; g_token := token "first"; g_pc := AtLock |};
                       {| g_appID := "app"; g_token := token "second"; g_pc := AtLock |} ] |}.

(** A registry with a locker but a [nil] tokens map. *)
Definition pull_no_map : VkAppsPull :=
  {| locker := Some 0%nat; callbackUrl := ""; secrets := None; tokens := None |}.

End Sample.

(** ** The request that [UsersGet] sends

    The URL that lines 171-194 of users.go build, the client they pick,
    and the answer of that client: what the theorems below call "the
    exchange" of a call. *)

Section Request.
Context `{Environment}.

Definition users_get_query (api : API) (userIds fields : slice string) (nameCase : string)
  : gmap string (list string) :=
  let query := URL_Query (API_getAPIURL api "users.get") in
  let query := Values_Set query "user_ids" (strings_Join (elems userIds) ",") in
  let query :=
    if decide (len fields > 0)
    then Values_Set query "fields" (strings_Join (elems fields) ",") else query in
  if decide (nameCase ≠ "") then Values_Set query "name_case" nameCase else query.

Definition users_get_url (api : API) (userIds fields : slice string) (nameCase : string)
  : string :=
  URL_String (URL_with_RawQuery (API_getAPIURL api "users.get")
                (Values_Encode (users_get_query api userIds fields nameCase))).

Definition exchange (api : API) (userIds fields : slice string) (nameCase : string)
  : HttpResponse + error :=
  Client_Get (default http_DefaultClient (API_httpClient api))
    (users_get_url api userIds fields nameCase).

(** The requests among the events of a computation. *)
Definition requests {A} (m : IO A) : list Event := filter (λ e, is_request e = true) (trace m).

End Request.

(** ** Further notions used by the theorems *)

Section MoreNotions.
Context `{PackageDecls}.

(** The goroutine has run its assignment [pull.tokens[appID] = token]. *)
Definition past_assign (g : goroutine) : bool :=
  match g_pc g with
  | AtUnlock | AtReturn => true
  | _ => false
  end.

#[export] Instance pc_eq_dec : EqDecision pc.
Proof. solve_decision. Defined.

(** The registrations that the goroutines of a configuration make. *)
Definition registrations_of (c : config) : list (string * AccessToken) :=
  (λ g, (g_appID g, g_token g)) <$> c_goroutines c.

(** What the tokens map at [m] holds while goroutines run, for every
    application: the token of a goroutine that has run its assignment
    for that application, or, when no goroutine has done so yet, what
    the map [t0] of the start held. *)
Definition settled (m : loc) (t0 : gmap string AccessToken) (c : config) : Prop :=
  ∀ appID,
    (∃ i g, c_goroutines c !! i = Some g ∧ g_appID g = appID ∧
            past_assign g = true ∧
            tokens_at (c_heap c) m !! appID = Some (g_token g)) ∨
    (tokens_at (c_heap c) m !! appID = t0 !! appID ∧
     ∀ i g, c_goroutines c !! i = Some g → g_appID g = appID → past_assign g = false).

(** Every goroutine has returned from [addToken]. *)
Definition all_returned (c : config) : Prop :=
  Forall (λ g, g_pc g = AtReturn) (c_goroutines c).

(** The events of [UsersGet] once the client has answered with [resp]:
    the log line of the body, what decoding logs, and the deferred
    [Close]. *)
Definition events_after_answer `{!Environment} (resp : HttpResponse) : list Event :=
  let responseBody := fst (Body resp) in
  Debugf "VK response(status=%v) body: %v"
    [ArgInt (StatusCode resp); ArgString (String.string_of_list_byte responseBody)]
  :: match json_Unmarshal responseBody Response_zero with
     | (_, Some _) => []
     | (response, None) =>
       Debugf "Unmarshalled VK response: %v" [ArgResponse response]
       :: match Error response with
          | Some ve =>
            [Debugf "VK API returned error - pass it upstream: %v" [ArgError (vkError_ptr ve)]]
          | None => []
          end
     end ++ [BodyClose].

End MoreNotions.

Module Sample2.

(** An API whose client answers with [body] under status 502 and a read
    error after the bytes of [body]. *)
Definition broken_answer (body : list Byte.byte) : @API Sample.decls Sample.env :=
  Some (λ _, inl {| StatusCode := 502;
                    Body := (body, Some (foreign_error "unexpected EOF")) |}).

(** Two goroutines that have both returned, the second one last. *)
Definition both_returned : @config Sample.decls :=
  {| c_heap := set_tokens 2%nat {[ "app" := Sample.token "second" ]} Sample.heap0;
     c_goroutines :=
       [ {| g_appID := "app"; g_token := Sample.token "first"; g_pc := AtReturn |};
         {| g_appID := "app"; g_token := Sample.token "second"; g_pc := AtReturn |} ] |}.

End Sample2.

(** * Theorems *)

(** ** Helpers and validation *)

Lemma len_nil_slice {A} : len (None : slice A) = 0.
Proof. reflexivity. Qed.

Lemma len_singleton {A} (x : A) : len (Some [x]) = 1.
Proof. reflexivity. Qed.

Lemma len_one_inv {A} (s : slice A) : len s = 1 → ∃ x, s = Some [x].
Proof.
  destruct s as [[|x [|y l]]|]; unfold len; simpl; intros Hl; try lia.
  by exists x.
Qed.

Lemma ElemInSlice_elem_of (elem : string) (s : list string) :
  ElemInSlice elem s = true ↔ elem ∈ s.
Proof.
  induction s as [|v rest IH]; simpl.
  - split; [discriminate | by intros ?%elem_of_nil].
  - case_decide as Hv; rewrite elem_of_cons.
    + split; [intros _; by left | done].
    + rewrite IH. split; [by right | intros [->|?]; [by destruct Hv | done]].
Qed.

Lemma ElemInSlice_NameCases (nameCase : string) :
  ElemInSlice nameCase NameCases = true ↔
  nameCase = "nom" ∨ nameCase = "gen" ∨ nameCase = "dat" ∨
  nameCase = "acc" ∨ nameCase = "ins" ∨ nameCase = "abl".
Proof.
  rewrite ElemInSlice_elem_of. unfold NameCases.
  rewrite !elem_of_cons, elem_of_nil. tauto.
Qed.

(** Runs the writer monad: binds and returns become pairs of a trace and
    a result. *)
Ltac io_simpl :=
  unfold defer, http_Get, log_Debugf, emit, requests, trace, result;
  unfold mbind, mret, IO_bind, IO_ret; simpl.

Section UsersGetFacts.
Context `{Environment}.

Implicit Types (api : API) (c : context_Context).
Implicit Types (userIds fields : slice string) (nameCase : string).

Lemma UsersGet_no_ids api c userIds fields nameCase :
  len userIds = 0 →
  UsersGet api c userIds fields nameCase = ([], (None, Some err_no_ids)).
Proof. intros Hl. unfold UsersGet. by rewrite decide_True. Qed.

Lemma UsersGet_bad_nameCase api c userIds fields nameCase :
  len userIds ≠ 0 →
  ElemInSlice nameCase NameCases = false →
  UsersGet api c userIds fields nameCase = ([], (None, Some err_name_case)).
Proof.
  intros Hl Hn. unfold UsersGet. rewrite decide_False by done. by rewrite Hn.
Qed.

(** Past the two checks, [UsersGet] makes one request, to the URL built
    from its arguments, and its result is decided by the client's answer
    and by the decoder. *)
Lemma UsersGet_exchange api c userIds fields nameCase :
  len userIds ≠ 0 →
  ElemInSlice nameCase NameCases = true →
  requests (UsersGet api c userIds fields nameCase)
    = [HttpGet (users_get_url api userIds fields nameCase)] ∧
  result (UsersGet api c userIds fields nameCase)
    = match exchange api userIds fields nameCase with
      | inr err => (None, Some err)
      | inl resp =>
        match json_Unmarshal (fst (Body resp)) Response_zero with
        | (_, Some e) => (None, Some (errors_Wrap e "Failed to unmarshal VK response"))
        | (response, None) => (Response_ response, vkError_ptr <$> Error response)
        end
      end.
Proof.
  intros Hl Hn. unfold UsersGet, exchange, users_get_url, users_get_query, requests.
  rewrite decide_False by done. rewrite Hn. simpl negb. cbv iota.
  destruct (decide (len fields > 0)); destruct (decide (nameCase ≠ ""));
    io_simpl;
    (destruct (Client_Get _ _) as [resp|err]; [|done]);
    io_simpl;
    (destruct (json_Unmarshal _ _) as [response [e|]]; [done|]);
    by destruct (Error response).
Qed.

(** A name case that is not one of the six is refused before anything is
    logged or sent. *)
Lemma UsersGet_rejects_unknown_nameCase api c userIds fields nameCase :
  len userIds ≠ 0 →
  nameCase ∉ NameCases →
  UsersGet api c userIds fields nameCase = ([], (None, Some err_name_case)).
Proof.
  intros Hl Hn. apply UsersGet_bad_nameCase; [done|].
  destruct (ElemInSlice nameCase NameCases) eqn:E; [|done].
  by apply ElemInSlice_elem_of in E.
Qed.

(** Each of the six name cases passes both checks: the request is sent. *)
Lemma UsersGet_sends_for_NameCases api c userIds fields nameCase :
  len userIds ≠ 0 →
  nameCase ∈ NameCases →
  requests (UsersGet api c userIds fields nameCase)
    = [HttpGet (users_get_url api userIds fields nameCase)].
Proof.
  intros Hl Hn. apply UsersGet_exchange; [done|]. by apply ElemInSlice_elem_of.
Qed.

(** C1 (the code at the empty name case): with at least one identifier
    and [nameCase] the empty string, [UsersGet] returns the error "the
    only available name cases are: nom, gen, dat, acc, ins, abl" and a
    nil list, and does nothing else: no log line, no request.  The empty
    string is not accepted as "no preference". *)
Theorem UsersGet_empty_nameCase_refused api c userIds fields :
  len userIds ≠ 0 →
  UsersGet api c userIds fields ""
    = ([], (None, Some (errors_New
          "the only available name cases are: nom, gen, dat, acc, ins, abl"))) ∧
  no_request (UsersGet api c userIds fields "").
Proof.
  intros Hl.
  assert (UsersGet api c userIds fields "" = ([], (None, Some err_name_case))) as ->.
  { by apply UsersGet_bad_nameCase. }
  split; [reflexivity | constructor].
Qed.

(** C3: a call of [UsersGet] with an empty identifier list ([nil] or of
    length 0), whatever the fields and the name case, returns the
    validation error "you must pass at least one id or screen_name" with
    a nil list, and its trace is empty: no request is made. *)
Theorem UsersGet_empty_ids api c userIds fields nameCase :
  len userIds = 0 →
  result (UsersGet api c userIds fields nameCase)
    = (None, Some (errors_New "you must pass at least one id or screen_name")) ∧
  trace (UsersGet api c userIds fields nameCase) = [] ∧
  no_request (UsersGet api c userIds fields nameCase).
Proof.
  intros Hl. rewrite UsersGet_no_ids by done.
  split; [reflexivity|]. split; [reflexivity | constructor].
Qed.

(** C5: when a call passes validation, the client answers, and the body
    decodes without error to an envelope with a null [error] and the
    array [users] as [response], [UsersGet] returns [users] and a nil
    error. *)
Theorem UsersGet_success api c userIds fields nameCase resp users :
  len userIds ≠ 0 →
  ElemInSlice nameCase NameCases = true →
  exchange api userIds fields nameCase = inl resp →
  json_Unmarshal (fst (Body resp)) Response_zero
    = ({| Error := None; Response_ := users |}, None) →
  result (UsersGet api c userIds fields nameCase) = (users, None).
Proof.
  intros Hl Hn Hx Hj.
  destruct (UsersGet_exchange api c userIds fields nameCase Hl Hn) as [_ ->].
  by rewrite Hx, Hj.
Qed.

(** C2: when a call passes validation, the client answers, and the body
    decodes to an envelope whose [error] is the non-null [ve],
    [UsersGet] returns an error whose [VkErrorCode] is [ve]'s
    error_code, together with the list [users] of the envelope's
    [response], be it nil, empty or populated. *)
Theorem UsersGet_remote_error api c userIds fields nameCase resp ve users :
  len userIds ≠ 0 →
  ElemInSlice nameCase NameCases = true →
  exchange api userIds fields nameCase = inl resp →
  json_Unmarshal (fst (Body resp)) Response_zero
    = ({| Error := Some ve; Response_ := users |}, None) →
  ∃ e, result (UsersGet api c userIds fields nameCase) = (users, Some e) ∧
       VkErrorCode e = Some (Code ve).
Proof.
  intros Hl Hn Hx Hj. exists (vkError_ptr ve).
  destruct (UsersGet_exchange api c userIds fields nameCase Hl Hn) as [_ ->].
  by rewrite Hx, Hj.
Qed.

(** C6: when a call passes validation, the client answers, and decoding
    the body fails with the error [e], [UsersGet] returns a nil list and
    [e] wrapped with the message "Failed to unmarshal VK response". *)
Theorem UsersGet_decode_error api c userIds fields nameCase resp response e :
  len userIds ≠ 0 →
  ElemInSlice nameCase NameCases = true →
  exchange api userIds fields nameCase = inl resp →
  json_Unmarshal (fst (Body resp)) Response_zero = (response, Some e) →
  result (UsersGet api c userIds fields nameCase)
    = (None, Some (errors_Wrap e "Failed to unmarshal VK response")).
Proof.
  intros Hl Hn Hx Hj.
  destruct (UsersGet_exchange api c userIds fields nameCase Hl Hn) as [_ ->].
  by rewrite Hx, Hj.
Qed.

(** C4: when the call of [UsersGet] made by [GetUserByIntID] returns a
    nil error, [GetUserByIntID] returns the record and a nil error if
    exactly one record came back, and panics (with the message
    "len(users):N != 1") for every other count; the events are those of
    [UsersGet]. *)
Theorem GetUserByIntID_count api c userID nameCase fields tr users :
  UsersGet api c (Some [strconv_FormatInt10 userID]) fields nameCase
    = (tr, (users, None)) →
  (len users = 1 →
     ∃ u, users = Some [u] ∧
          GetUserByIntID api c userID nameCase fields = (tr, Returns (u, None))) ∧
  (len users ≠ 1 →
     GetUserByIntID api c userID nameCase fields
       = (tr, Panics ("len(users):" +:+ pretty (len users) +:+ " != 1"))).
Proof.
  intros Hu. unfold GetUserByIntID. rewrite Hu. split.
  - intros [u ->]%len_one_inv. exists u. split; [done|].
    io_simpl. by rewrite app_nil_r.
  - intros Hl. io_simpl. rewrite decide_True by done. simpl. by rewrite app_nil_r.
Qed.

(** C9: when the call of [UsersGet] made by [GetUserByIntID] returns the
    non-nil error [e], [GetUserByIntID] returns the zero [UserInfo] and
    [e]; the list [users] that came with the error is dropped. *)
Theorem GetUserByIntID_error api c userID nameCase fields tr users e :
  UsersGet api c (Some [strconv_FormatInt10 userID]) fields nameCase
    = (tr, (users, Some e)) →
  GetUserByIntID api c userID nameCase fields = (tr, Returns (UserInfo_zero, Some e)).
Proof.
  intros Hu. unfold GetUserByIntID. rewrite Hu. io_simpl. by rewrite app_nil_r.
Qed.

End UsersGetFacts.

(** ** The token registry *)

Section RegistryFacts.
Context `{PackageDecls}.

Implicit Types (h : Heap) (pull : VkAppsPull) (l m : loc).
Implicit Types (appID : string) (token : AccessToken).

Lemma held_set_held l b h : held (set_held l b h) l = b.
Proof. unfold held, set_held; simpl. by rewrite lookup_insert_eq. Qed.

Lemma held_set_tokens l m t h : held (set_tokens m t h) l = held h l.
Proof. reflexivity. Qed.

Lemma tokens_at_set_held l b m h : tokens_at (set_held l b h) m = tokens_at h m.
Proof. reflexivity. Qed.

Lemma tokens_at_set_tokens m t h : tokens_at (set_tokens m t h) m = t.
Proof. unfold tokens_at, set_tokens; simpl. by rewrite lookup_insert_eq. Qed.

Ltac go_simpl := unfold mbind, mret, Go_bind, Go_ret; simpl.

(** What one call does on an initialised registry with a free locker. *)
Lemma addToken_initialised pull appID token h l m :
  locker pull = Some l → tokens pull = Some m → held h l = false →
  addToken pull appID token h
    = Ok tt (set_held l false
               (set_tokens m (<[appID := token]> (tokens_at h m)) (set_held l true h))).
Proof.
  intros Hl Hm Hf. unfold addToken. go_simpl.
  rewrite Hl, Hm. simpl. rewrite Hf. simpl.
  by rewrite held_set_tokens, held_set_held.
Qed.

Lemma addToken_nil_locker pull appID token h :
  locker pull = None → addToken pull appID token h = Panic nil_dereference h.
Proof. intros Hl. unfold addToken. go_simpl. by rewrite Hl. Qed.

Lemma addToken_nil_map pull appID token h l :
  locker pull = Some l → held h l = false → tokens pull = None →
  addToken pull appID token h = Panic nil_map_write (set_held l true h).
Proof.
  intros Hl Hf Hm. unfold addToken. go_simpl. rewrite Hl, Hm. simpl. by rewrite Hf.
Qed.

Lemma addToken_Ok_inv pull appID token h h' :
  addToken pull appID token h = Ok tt h' →
  ∃ l m, locker pull = Some l ∧ tokens pull = Some m ∧ held h l = false.
Proof.
  unfold addToken. go_simpl.
  destruct (locker pull) as [l|]; simpl; [|done].
  destruct (held h l) eqn:Hf; [done|].
  destruct (tokens pull) as [m|]; simpl; [|done].
  intros _. by exists l, m.
Qed.




(** *** Mutual exclusion

    The number of goroutines in the critical section is 1 while the
    locker is held and 0 while it is free. *)

Lemma count_critical_cons g gs :
  count_critical (g :: gs)
  = ((if in_critical g then 1 else 0) + count_critical gs)%nat.
Proof.
  unfold count_critical. rewrite filter_cons.
  destruct (in_critical g); by case_decide.
Qed.

Lemma count_critical_insert gs i g g' :
  gs !! i = Some g →
  (count_critical (<[i := g']> gs) + (if in_critical g then 1 else 0)
   = count_critical gs + (if in_critical g' then 1 else 0))%nat.
Proof.
  revert i. induction gs as [|g0 gs IH]; intros [|i] Hi; simplify_eq/=.
  - rewrite !count_critical_cons. lia.
  - rewrite !count_critical_cons. specialize (IH i Hi). lia.
Qed.

Lemma count_critical_all_AtLock gs :
  Forall (λ g, g_pc g = AtLock) gs → count_critical gs = 0%nat.
Proof.
  induction 1 as [|g gs Hg _ IH]; [done|].
  rewrite count_critical_cons, IH. unfold in_critical. by rewrite Hg.
Qed.

Lemma count_critical_exclusion gs :
  (count_critical gs ≤ 1)%nat →
  ∀ i j gi gj, gs !! i = Some gi → gs !! j = Some gj →
    in_critical gi = true → in_critical gj = true → i = j.
Proof.
  intros Hc i j gi gj Hi Hj Hgi Hgj.
  destruct (decide (i = j)) as [|Hne]; [done|exfalso].
  pose (idle := at_pc gi AtReturn).
  pose proof (count_critical_insert gs i gi idle Hi) as H1.
  assert (<[i := idle]> gs !! j = Some gj) as Hj'.
  { by rewrite list_lookup_insert_ne. }
  pose proof (count_critical_insert _ j gj idle Hj') as H2.
  rewrite Hgi in H1. rewrite Hgj in H2. simpl in H1, H2. lia.
Qed.

Lemma sched_keeps_count pull l c c' :
  locker pull = Some l →
  sched pull c c' →
  count_critical (c_goroutines c) = (if held (c_heap c) l then 1 else 0)%nat →
  count_critical (c_goroutines c') = (if held (c_heap c') l then 1 else 0)%nat.
Proof.
  intros Hl Hs Hc. destruct Hs as [c i g h' Hi Hpc Hrun]. simpl.
  pose proof (count_critical_insert _ i g (at_pc g (next_pc (g_pc g))) Hi) as Hins.
  unfold statement in Hrun. unfold in_critical in Hins.
  destruct (g_pc g) eqn:Hg; simpl in Hins; [| | |done].
  - (* Lock() *)
    unfold Locker_Lock in Hrun. rewrite Hl in Hrun.
    destruct (held (c_heap c) l) eqn:Hh; [done|]. simplify_eq.
    rewrite held_set_held. cbn [next_pc]. lia.
  - (* tokens[appID] = token *)
    unfold tokens_assign in Hrun. destruct (tokens pull) as [m|]; [|done].
    simplify_eq. rewrite held_set_tokens. cbn [next_pc]. lia.
  - (* Unlock() *)
    unfold Locker_Unlock in Hrun. rewrite Hl in Hrun.
    destruct (held (c_heap c) l) eqn:Hh; [|done]. simplify_eq.
    rewrite held_set_held. cbn [next_pc]. lia.
Qed.

Lemma addToken_mutual_exclusion pull c0 c :
  starting pull c0 → reachable pull c0 c → mutual_exclusion c.
Proof.
  intros [(l & Hl & Hfree) Hall] Hr.
  unfold mutual_exclusion. apply (count_critical_exclusion (c_goroutines c)).
  assert (count_critical (c_goroutines c) = (if held (c_heap c) l then 1 else 0)%nat)
    as ->; [|destruct (held (c_heap c) l); lia].
  induction Hr as [|c c' _ IH Hs].
  - rewrite Hfree. by apply count_critical_all_AtLock.
  - by apply (sched_keeps_count pull l c c').
Qed.


(** C8: [RegisterVkApps] returns the state of the package as it got it,
    whatever its arguments: the heap, and the callbackUrl, the secrets
    and the tokens of the registry are unchanged. *)
Theorem RegisterVkApps_no_effect (url : string) (appSecrets : option loc) (p : Package) :
  RegisterVkApps url appSecrets p = p ∧
  heap (RegisterVkApps url appSecrets p) = heap p ∧
  callbackUrl (vkAppsPull (RegisterVkApps url appSecrets p)) = callbackUrl (vkAppsPull p) ∧
  secrets (vkAppsPull (RegisterVkApps url appSecrets p)) = secrets (vkAppsPull p) ∧
  tokens (vkAppsPull (RegisterVkApps url appSecrets p)) = tokens (vkAppsPull p).
Proof. by repeat split. Qed.

Lemma register_calls_id calls (p : Package) : register_calls calls p = p.
Proof. unfold register_calls. by induction calls. Qed.

(** C10 (amended): [addToken] returns only on a registry whose locker
    and tokens map are both set.  The registry of the package is the
    zero [VkAppsPull] and stays so whatever [RegisterVkApps] is called
    with; on it [addToken] panics at [Lock()], on the nil locker, with
    the heap untouched, and so never reaches the assignment: it does not
    write to the nil map.  The write to a nil map is the panic of a
    registry that has a (free) locker but a nil tokens map; there the
    locker stays held. *)
Theorem addToken_needs_initialised_registry :
  (∀ calls h, vkAppsPull (register_calls calls (Package_init h)) = VkAppsPull_zero) ∧
  (∀ calls h appID token,
     let p := register_calls calls (Package_init h) in
     addToken (vkAppsPull p) appID token (heap p) = Panic nil_dereference (heap p)) ∧
  (∀ appID token h h',
     addToken VkAppsPull_zero appID token h ≠ Panic nil_map_write h') ∧
  (∀ pull appID token h, locker pull = None →
     addToken pull appID token h = Panic nil_dereference h) ∧
  (∀ pull appID token h l, locker pull = Some l → held h l = false → tokens pull = None →
     addToken pull appID token h = Panic nil_map_write (set_held l true h)) ∧
  (∀ pull appID token h h', addToken pull appID token h = Ok tt h' →
     is_Some (locker pull) ∧ is_Some (tokens pull)).
Proof.
  split; [|split; [|split; [|split; [|split]]]].
  - intros calls h. by rewrite register_calls_id.
  - intros calls h appID token. simpl. rewrite register_calls_id.
    by apply addToken_nil_locker.
  - intros appID token h h'. by rewrite addToken_nil_locker.
  - intros. by apply addToken_nil_locker.
  - intros. by apply addToken_nil_map.
  - intros pull appID token h h' (l & m & -> & -> & _)%addToken_Ok_inv. by split.
Qed.

End RegistryFacts.

(** ** More about users.go *)

Section UsersGetMore.
Context `{Environment}.

Implicit Types (api : API) (c : context_Context).
Implicit Types (userIds fields : slice string) (nameCase : string).

Lemma NameCases_nonempty nameCase :
  ElemInSlice nameCase NameCases = true → nameCase ≠ "".
Proof.
  intros Hn%ElemInSlice_NameCases ->.
  destruct Hn as [?|[?|[?|[?|[?|?]]]]]; discriminate.
Qed.

(** All the events of a call that passes the two checks, in order. *)
Lemma UsersGet_trace api c userIds fields nameCase :
  len userIds ≠ 0 →
  ElemInSlice nameCase NameCases = true →
  trace (UsersGet api c userIds fields nameCase)
  = ((if decide (len fields > 0)
      then [Debugf ("VK fields: " +:+ strings_Join (elems fields) ",") []] else [])
     ++ [Debugf "url: %v" [ArgString (users_get_url api userIds fields nameCase)];
         HttpGet (users_get_url api userIds fields nameCase)]
     ++ match exchange api userIds fields nameCase with
        | inl resp => events_after_answer resp
        | inr _ => []
        end)%list.
Proof.
  intros Hl Hn.
  unfold UsersGet, exchange, users_get_url, users_get_query, events_after_answer.
  rewrite decide_False by done. rewrite Hn. simpl negb. cbv iota.
  destruct (decide (len fields > 0)); destruct (decide (nameCase ≠ ""));
    io_simpl;
    (destruct (Client_Get _ _) as [resp|err]; [|done]);
    io_simpl;
    (destruct (json_Unmarshal _ _) as [response [e|]]; [done|]);
    by destruct (Error response).
Qed.

(** X1: a request is sent exactly when the identifier list is not empty
    and the name case is one of the six; then it is one request, to the
    URL built from the arguments. *)
Theorem UsersGet_requests api c userIds fields nameCase :
  requests (UsersGet api c userIds fields nameCase)
  = if decide (len userIds ≠ 0 ∧ nameCase ∈ NameCases)
    then [HttpGet (users_get_url api userIds fields nameCase)] else [].
Proof.
  case_decide as Hv.
  - destruct Hv as [Hl Hn]. by apply UsersGet_sends_for_NameCases.
  - destruct (decide (len userIds = 0)) as [Hl|Hl].
    + by rewrite UsersGet_no_ids.
    + rewrite UsersGet_rejects_unknown_nameCase; [done|done|].
      intros Hn. by apply Hv.
Qed.

(** X2: when the client's [Get] fails, its error is returned as it is
    (not wrapped), with a nil list; nothing is decoded and no body is
    closed. *)
Theorem UsersGet_transport_error api c userIds fields nameCase err :
  len userIds ≠ 0 →
  ElemInSlice nameCase NameCases = true →
  exchange api userIds fields nameCase = inr err →
  result (UsersGet api c userIds fields nameCase) = (None, Some err) ∧
  Forall (λ e, e ≠ BodyClose) (trace (UsersGet api c userIds fields nameCase)).
Proof.
  intros Hl Hn Hx. split.
  - destruct (UsersGet_exchange api c userIds fields nameCase Hl Hn) as [_ ->].
    by rewrite Hx.
  - rewrite UsersGet_trace by done. rewrite Hx.
    case_decide; repeat constructor; discriminate.
Qed.

(** X3: the query of the request.  [user_ids] is the identifiers joined
    by commas; [name_case] is always there, with the name case given;
    [fields] is the fields joined by commas when there are any, and
    otherwise what the endpoint URL had; every other key is what the
    endpoint URL had. *)
Theorem UsersGet_query api c userIds fields nameCase :
  len userIds ≠ 0 →
  ElemInSlice nameCase NameCases = true →
  ∃ q : gmap string (list string),
    requests (UsersGet api c userIds fields nameCase)
      = [HttpGet (URL_String (URL_with_RawQuery (API_getAPIURL api "users.get")
                                (Values_Encode q)))] ∧
    q !! "user_ids" = Some [strings_Join (elems userIds) ","] ∧
    q !! "name_case" = Some [nameCase] ∧
    q !! "fields" = (if decide (len fields > 0)
                     then Some [strings_Join (elems fields) ","]
                     else URL_Query (API_getAPIURL api "users.get") !! "fields") ∧
    ∀ k, k ≠ "user_ids" → k ≠ "fields" → k ≠ "name_case" →
         q !! k = URL_Query (API_getAPIURL api "users.get") !! k.
Proof.
  intros Hl Hn. exists (users_get_query api userIds fields nameCase).
  split; [by apply UsersGet_exchange|].
  pose proof (NameCases_nonempty nameCase Hn) as Hne.
  unfold users_get_query, Values_Set. rewrite (decide_True (P := nameCase ≠ "")) by done.
  split; [|split; [|split]].
  - rewrite lookup_insert_ne by done.
    case_decide; [rewrite lookup_insert_ne by done|]; by rewrite lookup_insert_eq.
  - by rewrite lookup_insert_eq.
  - rewrite lookup_insert_ne by done.
    case_decide; [by rewrite lookup_insert_eq | by rewrite lookup_insert_ne].
  - intros k H1 H2 H3. rewrite lookup_insert_ne by done.
    case_decide; [rewrite lookup_insert_ne by done|]; by rewrite lookup_insert_ne.
Qed.

(** X4: once the client has answered, the body is closed, as the last
    event and only once, whether decoding fails, the envelope carries an
    error, or the call succeeds. *)
Theorem UsersGet_closes_body api c userIds fields nameCase resp :
  len userIds ≠ 0 →
  ElemInSlice nameCase NameCases = true →
  exchange api userIds fields nameCase = inl resp →
  ∃ tr, trace (UsersGet api c userIds fields nameCase) = (tr ++ [BodyClose])%list ∧
        Forall (λ e, e ≠ BodyClose) tr.
Proof.
  intros Hl Hn Hx. rewrite UsersGet_trace by done. rewrite Hx.
  unfold events_after_answer.
  destruct (json_Unmarshal _ _) as [response [e|]]; [|destruct (Error response)];
    case_decide; simpl;
    match goal with
    | |- ∃ tr, ?l = _ ∧ _ => exists (take (length l - 1)%nat l)
    end; simpl; (split; [reflexivity|]); repeat constructor; discriminate.
Qed.

(** The result of any call, by cases on the two checks, the client's
    answer and the decoder. *)
Lemma UsersGet_result api c userIds fields nameCase :
  result (UsersGet api c userIds fields nameCase)
  = if decide (len userIds = 0) then (None, Some err_no_ids)
    else if ElemInSlice nameCase NameCases then
      match exchange api userIds fields nameCase with
      | inr err => (None, Some err)
      | inl resp =>
        match json_Unmarshal (fst (Body resp)) Response_zero with
        | (_, Some e) => (None, Some (errors_Wrap e "Failed to unmarshal VK response"))
        | (response, None) => (Response_ response, vkError_ptr <$> Error response)
        end
      end
    else (None, Some err_name_case).
Proof.
  case_decide as Hl; [by rewrite UsersGet_no_ids|].
  destruct (ElemInSlice nameCase NameCases) eqn:Hn.
  - by apply UsersGet_exchange.
  - by rewrite UsersGet_bad_nameCase.
Qed.

(** X5: what a call returns after the client has answered depends on
    the bytes of the body alone: the status code, an error met while
    reading the body, and the arguments of the call play no part. *)
Theorem UsersGet_result_from_body api1 api2 c1 c2 ids1 ids2 fields1 fields2
    (nameCase1 nameCase2 : string) resp1 resp2 :
  len ids1 ≠ 0 → ElemInSlice nameCase1 NameCases = true →
  len ids2 ≠ 0 → ElemInSlice nameCase2 NameCases = true →
  exchange api1 ids1 fields1 nameCase1 = inl resp1 →
  exchange api2 ids2 fields2 nameCase2 = inl resp2 →
  fst (Body resp1) = fst (Body resp2) →
  result (UsersGet api1 c1 ids1 fields1 nameCase1)
  = result (UsersGet api2 c2 ids2 fields2 nameCase2).
Proof.
  intros Hl1 Hn1 Hl2 Hn2 Hx1 Hx2 Hb. rewrite !UsersGet_result.
  rewrite !decide_False by done. by rewrite Hn1, Hn2, Hx1, Hx2, Hb.
Qed.

(** X6: a nil error comes only from an envelope: the two checks passed,
    the client answered, the body was decoded without error, the
    envelope's error was null, and the list returned is the envelope's
    response. *)
Theorem UsersGet_nil_error_inv api c userIds fields nameCase users :
  result (UsersGet api c userIds fields nameCase) = (users, None) →
  len userIds ≠ 0 ∧ nameCase ∈ NameCases ∧
  ∃ resp response,
    exchange api userIds fields nameCase = inl resp ∧
    json_Unmarshal (fst (Body resp)) Response_zero = (response, None) ∧
    Error response = None ∧ Response_ response = users.
Proof.
  rewrite UsersGet_result. case_decide as Hl; [done|].
  destruct (ElemInSlice nameCase NameCases) eqn:Hn; [|done].
  destruct (exchange api userIds fields nameCase) as [resp|err] eqn:Hx; [|done].
  destruct (json_Unmarshal _ _) as [response [e|]] eqn:Hj; [done|].
  destruct (Error response) as [ve|] eqn:He; [done|]. intros [= <-].
  split; [done|]. split; [by apply ElemInSlice_elem_of|]. by exists resp, response.
Qed.

(** X7: a non-nil list comes only from an envelope, and the error beside
    it is the envelope's error (nil when that is null): validation
    errors, transport errors and decode errors all come with a nil
    list. *)
Theorem UsersGet_list_inv api c userIds fields nameCase l err :
  result (UsersGet api c userIds fields nameCase) = (Some l, err) →
  ∃ resp response,
    exchange api userIds fields nameCase = inl resp ∧
    json_Unmarshal (fst (Body resp)) Response_zero = (response, None) ∧
    Response_ response = Some l ∧ err = vkError_ptr <$> Error response.
Proof.
  rewrite UsersGet_result. case_decide as Hl; [done|].
  destruct (ElemInSlice nameCase NameCases) eqn:Hn; [|done].
  destruct (exchange api userIds fields nameCase) as [resp|e] eqn:Hx; [|done].
  destruct (json_Unmarshal _ _) as [response [e|]] eqn:Hj; [done|].
  intros [= Hr <-]. by exists resp, response.
Qed.

(** X8: [GetUserByIntID] performs the events of its one call of
    [UsersGet] and no other; the identifier check never stops it, so it
    sends a request exactly when the name case is one of the six, for
    the identifier written in decimal. *)
Theorem GetUserByIntID_events api c (userID : Z) nameCase fields :
  trace (GetUserByIntID api c userID nameCase fields)
    = trace (UsersGet api c (Some [strconv_FormatInt10 userID]) fields nameCase) ∧
  requests (GetUserByIntID api c userID nameCase fields)
    = if decide (nameCase ∈ NameCases)
      then [HttpGet (users_get_url api (Some [strconv_FormatInt10 userID]) fields nameCase)]
      else [].
Proof.
  assert (trace (GetUserByIntID api c userID nameCase fields)
          = trace (UsersGet api c (Some [strconv_FormatInt10 userID]) fields nameCase)) as Ht.
  { unfold GetUserByIntID.
    destruct (UsersGet _ _ _ _ _) as [tr [users [e|]]]; io_simpl; [by rewrite app_nil_r|].
    case_decide; simpl; [by rewrite app_nil_r|].
    destruct (elems users); simpl; by rewrite app_nil_r. }
  split; [done|].
  unfold requests at 1. rewrite Ht.
  change (requests (UsersGet api c (Some [strconv_FormatInt10 userID]) fields nameCase)
          = if decide (nameCase ∈ NameCases)
            then [HttpGet (users_get_url api (Some [strconv_FormatInt10 userID])
                             fields nameCase)]
            else []).
  rewrite UsersGet_requests.
  case_decide as H1; case_decide as H2; try done.
  - by destruct H1.
  - destruct H1. by split.
Qed.

(** X9: [GetUserByIntID] panics exactly when its call of [UsersGet]
    returns a nil error with a list whose length is not 1; it never
    panics alongside an error. *)
Theorem GetUserByIntID_panics_iff api c (userID : Z) nameCase fields :
  (∃ v, result (GetUserByIntID api c userID nameCase fields) = Panics v) ↔
  ∃ users,
    result (UsersGet api c (Some [strconv_FormatInt10 userID]) fields nameCase)
      = (users, None) ∧
    len users ≠ 1.
Proof.
  unfold GetUserByIntID.
  destruct (UsersGet _ _ _ _ _) as [tr [users [e|]]]; io_simpl.
  - split; [by intros [v ?] | by intros (u & ? & _)].
  - case_decide as Hl; simpl.
    + split; [intros _; by exists users | intros _; by eexists].
    + destruct (len_one_inv users Hl) as [u ->]. simpl.
      split; [by intros [v ?] | intros (u' & [= <-] & Hne); by destruct Hne].
Qed.

(** X10: with a name case that is not one of the six (the empty string
    included), [GetUserByIntID] returns the zero [UserInfo] and the
    name-case error without logging or sending anything. *)
Theorem GetUserByIntID_bad_nameCase api c (userID : Z) nameCase fields :
  nameCase ∉ NameCases →
  GetUserByIntID api c userID nameCase fields
  = ([], Returns (UserInfo_zero,
                  Some (errors_New
                    "the only available name cases are: nom, gen, dat, acc, ins, abl"))).
Proof.
  intros Hn. unfold GetUserByIntID.
  by rewrite UsersGet_rejects_unknown_nameCase.
Qed.

End UsersGetMore.

(** ** More about the token registry *)

Ltac go_run := unfold mbind, mret, Go_bind, Go_ret; simpl.

Section RegistryMore.
Context `{PackageDecls}.

Implicit Types (h : Heap) (pull : VkAppsPull) (l m : loc).
Implicit Types (appID : string) (token : AccessToken).

Lemma held_set_held_ne l l' b h : l ≠ l' → held (set_held l b h) l' = held h l'.
Proof. intros Hne. unfold held, set_held; simpl. by rewrite lookup_insert_ne. Qed.

Lemma tokens_at_set_tokens_ne m m' t h :
  m ≠ m' → tokens_at (set_tokens m t h) m' = tokens_at h m'.
Proof. intros Hne. unfold tokens_at, set_tokens; simpl. by rewrite lookup_insert_ne. Qed.

Lemma addToken_held pull appID token h l :
  locker pull = Some l → held h l = true → addToken pull appID token h = Waits h.
Proof. intros Hl Hh. unfold addToken. go_run. rewrite Hl. simpl. by rewrite Hh. Qed.

(** X11: a call of [addToken] that returns has changed one entry of one
    map and nothing else: the secrets maps, the state of every locker,
    the other tokens maps and the other entries of its own tokens map
    are as before. *)
Theorem addToken_frame pull appID token h h' :
  addToken pull appID token h = Ok tt h' →
  secret_maps h' = secret_maps h ∧
  (∀ l', held h' l' = held h l') ∧
  (∀ m', tokens pull ≠ Some m' → tokens_at h' m' = tokens_at h m') ∧
  (∀ m' appID', appID' ≠ appID → tokens_at h' m' !! appID' = tokens_at h m' !! appID').
Proof.
  intros Hrun.
  destruct (addToken_Ok_inv _ _ _ _ _ Hrun) as (l & m & Hl & Hm & Hf).
  rewrite (addToken_initialised _ _ _ _ l m Hl Hm Hf) in Hrun.
  injection Hrun as <-. split; [done|]. split; [|split].
  - intros l'. destruct (decide (l = l')) as [<-|Hne].
    + by rewrite held_set_held.
    + rewrite held_set_held_ne, held_set_tokens, held_set_held_ne; done.
  - intros m' Hne. rewrite tokens_at_set_held, tokens_at_set_tokens_ne; [done|].
    intros ->. by destruct Hne.
  - intros m' appID' Hne. rewrite tokens_at_set_held.
    destruct (decide (m = m')) as [<-|Hm'].
    + by rewrite tokens_at_set_tokens, lookup_insert_ne.
    + by rewrite tokens_at_set_tokens_ne.
Qed.

(** X12: the locker is not released when the assignment panics.  After
    a call on a registry with a locker but a nil tokens map, every call
    of [addToken] that uses the same locker waits, and the heap stays as
    the panic left it. *)
Theorem addToken_locker_leak pull pull' appID token appID' token' h l :
  locker pull = Some l → held h l = false → tokens pull = None →
  locker pull' = Some l →
  ∃ h1, addToken pull appID token h = Panic nil_map_write h1 ∧
        held h1 l = true ∧
        addToken pull' appID' token' h1 = Waits h1.
Proof.
  intros Hl Hf Hm Hl'. exists (set_held l true h).
  split; [by apply addToken_nil_map|].
  split; [by apply held_set_held|].
  apply (addToken_held _ _ _ _ l); [done | by apply held_set_held].
Qed.

Lemma heap_eq (h1 h2 : Heap) :
  lockers h1 = lockers h2 → secret_maps h1 = secret_maps h2 →
  token_maps h1 = token_maps h2 → h1 = h2.
Proof. destruct h1, h2; simpl; by intros -> -> ->. Qed.

(** X13: registering twice for the same application is registering the
    second token once: on every heap the two calls in a row leave what
    the second call alone leaves, be it a return, a panic or a wait. *)
Theorem addToken_overwrites pull appID token1 token2 h :
  (addToken pull appID token1;; addToken pull appID token2) h
  = addToken pull appID token2 h.
Proof.
  destruct (locker pull) as [l|] eqn:Hl.
  2: { go_run. by rewrite !addToken_nil_locker. }
  destruct (held h l) eqn:Hf.
  { go_run. by rewrite !(addToken_held _ _ _ _ l). }
  destruct (tokens pull) as [m|] eqn:Hm.
  2: { go_run. by rewrite !(addToken_nil_map _ _ _ _ l). }
  go_run.
  rewrite (addToken_initialised pull appID token1 h l m) by done.
  rewrite (addToken_initialised pull appID token2 h l m) by done.
  rewrite (addToken_initialised pull appID token2 _ l m)
    by (done || apply held_set_held).
  apply (f_equal (Ok tt)), heap_eq; simpl; [by rewrite !insert_insert_eq | done |].
  rewrite insert_insert_eq. f_equal.
  unfold tokens_at; simpl. rewrite lookup_insert_eq. simpl.
  by rewrite insert_insert_eq.
Qed.

(** X14: registrations for different applications commute: the two
    orders leave the same heap and the same outcome. *)
Theorem addToken_commutes pull appID1 token1 appID2 token2 h :
  appID1 ≠ appID2 →
  (addToken pull appID1 token1;; addToken pull appID2 token2) h
  = (addToken pull appID2 token2;; addToken pull appID1 token1) h.
Proof.
  intros Hne.
  destruct (locker pull) as [l|] eqn:Hl.
  2: { go_run. by rewrite !addToken_nil_locker. }
  destruct (held h l) eqn:Hf.
  { go_run. by rewrite !(addToken_held _ _ _ _ l). }
  destruct (tokens pull) as [m|] eqn:Hm.
  2: { go_run. by rewrite !(addToken_nil_map _ _ _ _ l). }
  go_run.
  rewrite (addToken_initialised pull appID1 token1 h l m) by done.
  rewrite (addToken_initialised pull appID2 token2 h l m) by done.
  rewrite (addToken_initialised pull appID2 token2 _ l m)
    by (done || apply held_set_held).
  rewrite (addToken_initialised pull appID1 token1 _ l m)
    by (done || apply held_set_held).
  apply (f_equal (Ok tt)), heap_eq; simpl; [by rewrite !insert_insert_eq | done |].
  rewrite !insert_insert_eq. f_equal.
  unfold tokens_at; simpl. rewrite !lookup_insert_eq. simpl.
  by apply insert_insert_ne.
Qed.

(** *** Goroutines: safety, progress and the final map *)

Lemma reachable_count pull l c0 c :
  locker pull = Some l →
  held (c_heap c0) l = false →
  Forall (λ g, g_pc g = AtLock) (c_goroutines c0) →
  reachable pull c0 c →
  count_critical (c_goroutines c) = (if held (c_heap c) l then 1 else 0)%nat.
Proof.
  intros Hl Hfree Hall Hr. induction Hr as [|c c' _ IH Hs].
  - rewrite Hfree. by apply count_critical_all_AtLock.
  - by apply (sched_keeps_count pull l c c').
Qed.

Lemma count_critical_pos gs i g :
  gs !! i = Some g → in_critical g = true → (1 ≤ count_critical gs)%nat.
Proof.
  intros Hi Hg.
  pose proof (count_critical_insert gs i g (at_pc g AtReturn) Hi) as Hins.
  rewrite Hg in Hins. simpl in Hins. lia.
Qed.

Lemma count_critical_pos_inv gs :
  (1 ≤ count_critical gs)%nat → ∃ i g, gs !! i = Some g ∧ in_critical g = true.
Proof.
  induction gs as [|g gs IH]; [unfold count_critical; simpl; lia|].
  rewrite count_critical_cons. destruct (in_critical g) eqn:Hg.
  - intros _. by exists 0%nat, g.
  - intros Hc. destruct IH as (i & g' & Hi & Hg'); [simpl in Hc; lia|].
    by exists (S i), g'.
Qed.

(** X15: goroutines that start together on a registry with a locker
    (free) and a tokens map never panic: no statement of [addToken] that
    any of them is about to run panics, in any configuration they can
    reach; in particular [Unlock()] is never run on a free locker. *)
Theorem addToken_goroutines_never_panic pull c0 c i g v h' :
  starting pull c0 →
  is_Some (tokens pull) →
  reachable pull c0 c →
  c_goroutines c !! i = Some g →
  statement pull g (c_heap c) ≠ Panic v h'.
Proof.
  intros [(l & Hl & Hfree) Hall] [m Hm] Hr Hi.
  pose proof (reachable_count pull l c0 c Hl Hfree Hall Hr) as Hc.
  unfold statement. destruct (g_pc g) eqn:Hg; [| | |done].
  - unfold Locker_Lock. rewrite Hl. by destruct (held (c_heap c) l).
  - unfold tokens_assign. by rewrite Hm.
  - unfold Locker_Unlock. rewrite Hl.
    assert (1 ≤ count_critical (c_goroutines c))%nat as Hpos.
    { apply (count_critical_pos _ i g Hi). unfold in_critical. by rewrite Hg. }
    destruct (held (c_heap c) l); [done | lia].
Qed.

(** X16: there is no deadlock: as long as one of these goroutines has
    not returned, the scheduler can run a statement of some goroutine. *)
Theorem addToken_goroutines_progress pull c0 c :
  starting pull c0 →
  is_Some (tokens pull) →
  reachable pull c0 c →
  ¬ all_returned c →
  ∃ c', sched pull c c'.
Proof.
  intros [(l & Hl & Hfree) Hall] [m Hm] Hr Hnot.
  pose proof (reachable_count pull l c0 c Hl Hfree Hall Hr) as Hc.
  destruct (held (c_heap c) l) eqn:Hh.
  - (* the holder of the locker can go on *)
    destruct (count_critical_pos_inv (c_goroutines c)) as (i & g & Hi & Hg); [lia|].
    unfold in_critical in Hg. destruct (g_pc g) eqn:Hpc; try done.
    + eexists. eapply (sched_run pull c i g); [exact Hi | by rewrite Hpc |].
      unfold statement. rewrite Hpc. unfold tokens_assign. by rewrite Hm.
    + eexists. eapply (sched_run pull c i g); [exact Hi | by rewrite Hpc |].
      unfold statement. rewrite Hpc. unfold Locker_Unlock. by rewrite Hl, Hh.
  - (* the locker is free: a goroutine that has not returned takes it *)
    apply not_Forall_Exists in Hnot; [|apply _].
    apply Exists_exists in Hnot as (g & Hin & Hpc).
    apply list_elem_of_lookup in Hin as [i Hi].
    assert (in_critical g = false) as Hg.
    { destruct (in_critical g) eqn:Hg; [|done].
      pose proof (count_critical_pos _ i g Hi Hg). lia. }
    unfold in_critical in Hg. destruct (g_pc g) eqn:Hpc'; try done.
    eexists. eapply (sched_run pull c i g); [exact Hi | by rewrite Hpc' |].
    unfold statement. rewrite Hpc'. unfold Locker_Lock. by rewrite Hl, Hh.
Qed.

Lemma lookup_insert_goroutine (gs : list goroutine) i j g g' gj :
  gs !! i = Some g →
  <[i := g']> gs !! j = Some gj →
  (j = i ∧ gj = g') ∨ (j ≠ i ∧ gs !! j = Some gj).
Proof.
  intros Hi Hj. destruct (decide (j = i)) as [->|Hne].
  - left. rewrite list_lookup_insert_eq in Hj by (by eapply lookup_lt_Some).
    split; [done | congruence].
  - right. by rewrite list_lookup_insert_ne in Hj.
Qed.

Lemma sched_registrations pull c c' :
  sched pull c c' → registrations_of c' = registrations_of c.
Proof.
  intros [c0 i g h' Hi _ _]. unfold registrations_of; simpl.
  rewrite list_fmap_insert. apply list_insert_id.
  by rewrite list_lookup_fmap, Hi.
Qed.

Lemma reachable_registrations pull c0 c :
  reachable pull c0 c → registrations_of c = registrations_of c0.
Proof.
  induction 1 as [|c c' _ IH Hs]; [done|].
  by rewrite (sched_registrations pull c c').
Qed.

(** A statement that is not the assignment leaves [settled] as it is. *)
Lemma settled_same_map m t0 (gs : list goroutine) i g p h h' :
  gs !! i = Some g →
  past_assign (at_pc g p) = past_assign g →
  tokens_at h' m = tokens_at h m →
  settled m t0 {| c_heap := h; c_goroutines := gs |} →
  settled m t0 {| c_heap := h'; c_goroutines := <[i := at_pc g p]> gs |}.
Proof.
  intros Hi Hp Ht Hs appID. specialize (Hs appID). simpl in *. rewrite Ht.
  destruct Hs as [(j & gj & Hj & Ha & Hpa & Hv)|[Hv Hnone]].
  - left. destruct (decide (j = i)) as [->|Hne].
    + exists i, (at_pc g p). assert (gj = g) as -> by congruence.
      rewrite list_lookup_insert_eq by (by eapply lookup_lt_Some).
      by rewrite Hp.
    + exists j, gj. by rewrite list_lookup_insert_ne.
  - right. split; [done|]. intros j gj Hj Ha.
    destruct (lookup_insert_goroutine gs i j g _ gj Hi Hj) as [[-> ->]|[_ Hj']].
    + rewrite Hp. by apply (Hnone i g).
    + by apply (Hnone j gj).
Qed.

Lemma sched_keeps_settled pull l m t0 c c' :
  locker pull = Some l → tokens pull = Some m →
  sched pull c c' → settled m t0 c → settled m t0 c'.
Proof.
  intros Hl Hm Hs Hinv. destruct Hs as [c i g h' Hi Hpc Hrun].
  destruct c as [h gs]. simpl in *.
  unfold statement in Hrun. destruct (g_pc g) eqn:Hg; [| | |done].
  - (* Lock() *)
    unfold Locker_Lock in Hrun. rewrite Hl in Hrun.
    destruct (held h l); [done|]. simplify_eq.
    apply (settled_same_map m t0 gs i g _ h); try done.
    unfold past_assign. simpl. by rewrite Hg.
  - (* tokens[appID] = token *)
    unfold tokens_assign in Hrun. rewrite Hm in Hrun. simplify_eq.
    intros appID. specialize (Hinv appID). simpl in *.
    rewrite tokens_at_set_tokens.
    destruct (decide (g_appID g = appID)) as [Ha|Hne].
    + left. exists i, (at_pc g AtUnlock).
      rewrite list_lookup_insert_eq by (by eapply lookup_lt_Some).
      split; [done|]. split; [done|]. split; [done|].
      simpl. rewrite <- Ha. by rewrite lookup_insert_eq.
    + rewrite lookup_insert_ne by done.
      destruct Hinv as [(j & gj & Hj & Ha & Hpa & Hv)|[Hv Hnone]].
      * left. exists j, gj. rewrite list_lookup_insert_ne; [done|].
        intros <-. congruence.
      * right. split; [done|]. intros j gj Hj Ha.
        destruct (lookup_insert_goroutine gs i j g _ gj Hi Hj) as [[-> ->]|[_ Hj']].
        -- by destruct Hne.
        -- by apply (Hnone j gj).
  - (* Unlock() *)
    unfold Locker_Unlock in Hrun. rewrite Hl in Hrun.
    destruct (held h l); [|done]. simplify_eq.
    apply (settled_same_map m t0 gs i g _ h); try done.
    unfold past_assign. simpl. by rewrite Hg.
Qed.

Lemma count_critical_all_returned gs :
  Forall (λ g, g_pc g = AtReturn) gs → count_critical gs = 0%nat.
Proof.
  induction 1 as [|g gs Hg _ IH]; [done|].
  rewrite count_critical_cons, IH. unfold in_critical. by rewrite Hg.
Qed.

(** X17: when all the goroutines have returned, the locker is free, and
    the tokens map holds, for every application some goroutine
    registered a token for, the token of one of those goroutines, and
    for every other application what it held at the start: every
    registration took effect, and no entry is lost or made up. *)
Theorem addToken_goroutines_final pull l m c0 c :
  locker pull = Some l →
  tokens pull = Some m →
  starting pull c0 →
  reachable pull c0 c →
  all_returned c →
  held (c_heap c) l = false ∧
  ∀ appID,
    (∃ token, (appID, token) ∈ registrations_of c0 ∧
              tokens_at (c_heap c) m !! appID = Some token) ∨
    ((appID ∉ (registrations_of c0).*1) ∧
     tokens_at (c_heap c) m !! appID = tokens_at (c_heap c0) m !! appID).
Proof.
  intros Hl Hm [(l' & Hl' & Hfree) Hall] Hr Hdone.
  assert (l' = l) as -> by congruence.
  split.
  - pose proof (reachable_count pull l c0 c Hl Hfree Hall Hr) as Hc.
    rewrite count_critical_all_returned in Hc by done.
    by destruct (held (c_heap c) l).
  - assert (settled m (tokens_at (c_heap c0) m) c) as Hs.
    { clear Hdone. induction Hr as [|c c' _ IH Hstep].
      - intros appID. right. split; [done|]. intros i g Hi _.
        unfold past_assign.
        by rewrite (proj1 (Forall_lookup _ _) Hall i g Hi).
      - by apply (sched_keeps_settled pull l m _ c c'). }
    intros appID. rewrite <- (reachable_registrations pull c0 c Hr).
    destruct (Hs appID) as [(i & g & Hi & Ha & _ & Hv)|[Hv Hnone]].
    + left. exists (g_token g). split; [|done].
      unfold registrations_of. apply list_elem_of_fmap.
      exists g. split; [by rewrite Ha|]. by eapply list_elem_of_lookup_2.
    + right. split; [|done].
      unfold registrations_of. rewrite <- list_fmap_compose.
      intros (g & Ha & [i Hi]%list_elem_of_lookup)%list_elem_of_fmap.
      simpl in Ha. specialize (Hnone i g Hi (eq_sym Ha)).
      unfold past_assign in Hnone.
      by rewrite (proj1 (Forall_lookup _ _) Hdone i g Hi) in Hnone.
Qed.

(** Runs are built from the front as well as from the back. *)
Lemma reachable_first pull c0 c1 c :
  sched pull c0 c1 → reachable pull c1 c → reachable pull c0 c.
Proof.
  intros Hs Hr. induction Hr as [|c c' _ IH Hs'].
  - eapply reachable_step; [apply reachable_start | exact Hs].
  - eapply reachable_step; [exact IH | exact Hs'].
Qed.

End RegistryMore.

(** ** The theorems at work on the sample world *)

#[local] Existing Instance Sample.decls.
#[local] Existing Instance Sample.env.

Example sample_one_user :
  UsersGet (Sample.answering Sample.body_user) tt (Some ["1"]) None "nom"
  = ([Debugf "url: %v" [ArgString "https://api.vk.com/method/users.get?user_ids=1&name_case=nom"];
      HttpGet "https://api.vk.com/method/users.get?user_ids=1&name_case=nom";
      Debugf "VK response(status=%v) body: %v"
        [ArgInt 200; ArgString (String.string_of_list_byte Sample.body_user)];
      Debugf "Unmarshalled VK response: %v"
        [ArgResponse {| Error := None; Response_ := Some [Sample.ivan] |}];
      BodyClose],
     (Some [Sample.ivan], None)).
Proof. vm_compute. reflexivity. Qed.

Example sample_offline :
  result (UsersGet Sample.offline tt (Some ["1"; "ivan"]) (Some ["sex"; "bdate"]) "gen")
  = (None, Some (foreign_error "dial tcp: no such host")).
Proof. vm_compute. reflexivity. Qed.

Example sample_NameCases_message :
  strings_Join NameCases ", " = "nom, gen, dat, acc, ins, abl".
Proof. reflexivity. Qed.

Example sample_negative_id : strconv_FormatInt10 (-42) = "-42".
Proof. reflexivity. Qed.

(** Once the first caller holds the locker, the second one waits. *)
Example sample_second_caller_waits :
  ∃ h, Locker_Lock (locker Sample.pull) Sample.heap0 = Ok tt h ∧
       Locker_Lock (locker Sample.pull) h = Waits h.
Proof. eexists. split; reflexivity. Qed.

(** The scheduler can run the first caller into the critical section;
    there the second caller is not run, and exclusion holds. *)
Example sample_first_caller_inside :
  let c := {| c_heap := set_held 0%nat true Sample.heap0;
              c_goroutines :=
                [ {| g_appID := "app"; g_token := Sample.token "first"; g_pc := AtAssign |};
                  {| g_appID := "app"; g_token := Sample.token "second"; g_pc := AtLock |} ] |} in
  reachable Sample.pull Sample.two_callers c ∧
  (∀ h', statement Sample.pull {| g_appID := "app"; g_token := Sample.token "second";
                                  g_pc := AtLock |} (c_heap c) ≠ Ok tt h') ∧
  mutual_exclusion c.
Proof.
  assert (reachable Sample.pull Sample.two_callers
            {| c_heap := set_held 0%nat true Sample.heap0;
               c_goroutines :=
                 [ {| g_appID := "app"; g_token := Sample.token "first"; g_pc := AtAssign |};
                   {| g_appID := "app"; g_token := Sample.token "second"; g_pc := AtLock |} ] |})
    as Hr.
  { eapply reachable_step; [apply reachable_start|].
    apply (sched_run Sample.pull Sample.two_callers 0
             {| g_appID := "app"; g_token := Sample.token "first"; g_pc := AtLock |}
             (set_held 0%nat true Sample.heap0)); [reflexivity | discriminate | reflexivity]. }
  simpl. split; [exact Hr|]. split.
  - intros h'. vm_compute. discriminate.
  - eapply addToken_mutual_exclusion; [|exact Hr].
    split; [exists 0%nat; by split|]. repeat constructor.
Qed.

(** The three sample registrations leave "t3" for app1 and "t2" for app2. *)
Example sample_registrations :
  match addTokens Sample.pull Sample.registrations Sample.heap0 with
  | Ok _ h => map_to_list (tokens_at h 2%nat)
  | _ => []
  end ≡ₚ [("app1", Sample.token "t3"); ("app2", Sample.token "t2")].
Proof. vm_compute. reflexivity. Qed.

Lemma UsersGet_empty_nameCase_refused_witness :
  UsersGet (Sample.answering Sample.body_user) tt (Some ["1"]) None ""
    = ([], (None, Some (errors_New
          "the only available name cases are: nom, gen, dat, acc, ins, abl"))) ∧
  no_request (UsersGet (Sample.answering Sample.body_user) tt (Some ["1"]) None "").
Proof.
  apply (UsersGet_empty_nameCase_refused
           (Sample.answering Sample.body_user) tt (Some ["1"]) None).
  vm_compute. lia.
Defined.

Lemma UsersGet_empty_ids_witness :
  result (UsersGet Sample.offline tt (Some []) (Some ["sex"]) "nom")
    = (None, Some (errors_New "you must pass at least one id or screen_name")) ∧
  trace (UsersGet Sample.offline tt (Some []) (Some ["sex"]) "nom") = [] ∧
  no_request (UsersGet Sample.offline tt (Some []) (Some ["sex"]) "nom").
Proof.
  apply (UsersGet_empty_ids Sample.offline tt (Some []) (Some ["sex"]) "nom").
  reflexivity.
Defined.

Lemma UsersGet_success_witness :
  result (UsersGet (Sample.answering Sample.body_user) tt (Some ["1"]) None "nom")
  = (Some [Sample.ivan], None).
Proof.
  apply (UsersGet_success (Sample.answering Sample.body_user) tt (Some ["1"]) None "nom"
           {| StatusCode := 200; Body := (Sample.body_user, None) |} (Some [Sample.ivan])).
  - vm_compute. lia.
  - reflexivity.
  - reflexivity.
  - vm_compute. reflexivity.
Defined.

Lemma UsersGet_remote_error_witness :
  ∃ e, result (UsersGet (Sample.answering Sample.body_partial) tt (Some ["1"]) None "nom")
         = (Some [Sample.ivan], Some e) ∧
       VkErrorCode e = Some 113.
Proof.
  apply (UsersGet_remote_error (Sample.answering Sample.body_partial) tt (Some ["1"]) None
           "nom" {| StatusCode := 200; Body := (Sample.body_partial, None) |}
           Sample.invalid_user_id (Some [Sample.ivan])).
  - vm_compute. lia.
  - reflexivity.
  - reflexivity.
  - vm_compute. reflexivity.
Defined.

Lemma UsersGet_decode_error_witness :
  result (UsersGet (Sample.answering Sample.body_html) tt (Some ["1"]) None "nom")
  = (None, Some (errors_Wrap
                   (foreign_error "invalid character '<' looking for beginning of value")
                   "Failed to unmarshal VK response")).
Proof.
  apply (UsersGet_decode_error (Sample.answering Sample.body_html) tt (Some ["1"]) None
           "nom" {| StatusCode := 200; Body := (Sample.body_html, None) |} Response_zero).
  - vm_compute. lia.
  - reflexivity.
  - reflexivity.
  - vm_compute. reflexivity.
Defined.

Lemma GetUserByIntID_count_witness :
  (∃ tr, GetUserByIntID (Sample.answering Sample.body_user) tt 1 "nom" None
         = (tr, Returns (Sample.ivan, None))) ∧
  (∃ tr, GetUserByIntID (Sample.answering Sample.body_two) tt 1 "nom" None
         = (tr, Panics "len(users):2 != 1")).
Proof.
  split.
  - destruct (GetUserByIntID_count (Sample.answering Sample.body_user) tt 1 "nom" None
                (trace (UsersGet (Sample.answering Sample.body_user) tt
                          (Some [strconv_FormatInt10 1]) None "nom"))
                (Some [Sample.ivan])) as [Hone _].
    { vm_compute. reflexivity. }
    destruct Hone as (u & Hu & Hret); [reflexivity|].
    injection Hu as <-. eexists. exact Hret.
  - destruct (GetUserByIntID_count (Sample.answering Sample.body_two) tt 1 "nom" None
                (trace (UsersGet (Sample.answering Sample.body_two) tt
                          (Some [strconv_FormatInt10 1]) None "nom"))
                (Some [Sample.ivan; Sample.ivan])) as [_ Hother].
    { vm_compute. reflexivity. }
    eexists. apply Hother. vm_compute. lia.
Defined.

Lemma GetUserByIntID_error_witness :
  ∃ tr, GetUserByIntID (Sample.answering Sample.body_partial) tt 1 "nom" None
        = (tr, Returns (UserInfo_zero, Some (vkError_ptr Sample.invalid_user_id))).
Proof.
  eexists.
  apply (GetUserByIntID_error (Sample.answering Sample.body_partial) tt 1 "nom" None
           (trace (UsersGet (Sample.answering Sample.body_partial) tt
                     (Some [strconv_FormatInt10 1]) None "nom"))
           (Some [Sample.ivan]) (vkError_ptr Sample.invalid_user_id)).
  vm_compute. reflexivity.
Defined.


Lemma addToken_needs_initialised_registry_witness :
  addToken Sample.pull_no_map "app" (Sample.token "t") Sample.heap0
    = Panic nil_map_write (set_held 0%nat true Sample.heap0) ∧
  addToken VkAppsPull_zero "app" (Sample.token "t") Sample.heap0
    = Panic nil_dereference Sample.heap0.
Proof.
  destruct (@addToken_needs_initialised_registry Sample.decls)
    as (_ & _ & _ & Hlocker & Hmap & _).
  split.
  - apply (Hmap Sample.pull_no_map "app" (Sample.token "t") Sample.heap0 0%nat); reflexivity.
  - apply (Hlocker VkAppsPull_zero "app" (Sample.token "t") Sample.heap0). reflexivity.
Defined.

(** C10 as stated fails: the call on the zero registry does not write to
    a nil map.  It stops at [Lock()], one statement before the
    assignment, with the heap as it was. *)
Lemma addToken_zero_registry_no_nil_map_write :
  ¬ (∃ h', addToken VkAppsPull_zero "app" (Sample.token "t") Sample.heap0
           = Panic nil_map_write h') ∧
  addToken VkAppsPull_zero "app" (Sample.token "t") Sample.heap0
    = Panic nil_dereference Sample.heap0.
Proof.
  split; [|reflexivity].
  intros [h' Hrun]. vm_compute in Hrun. discriminate Hrun.
Qed.

(** ** The further theorems at work on the sample world *)

Lemma UsersGet_transport_error_witness :
  result (UsersGet Sample.offline tt (Some ["1"]) None "nom")
    = (None, Some (foreign_error "dial tcp: no such host")) ∧
  Forall (λ e, e ≠ BodyClose) (trace (UsersGet Sample.offline tt (Some ["1"]) None "nom")).
Proof.
  apply (UsersGet_transport_error Sample.offline tt (Some ["1"]) None "nom"
           (foreign_error "dial tcp: no such host")).
  - vm_compute. lia.
  - reflexivity.
  - reflexivity.
Defined.

Lemma UsersGet_query_witness :
  ∃ q : gmap string (list string),
    requests (UsersGet (Sample.answering Sample.body_user) tt
                (Some ["1"; "2"]) (Some ["sex"; "bdate"]) "gen")
      = [HttpGet (URL_String (URL_with_RawQuery
                    (API_getAPIURL (Sample.answering Sample.body_user) "users.get")
                    (Values_Encode q)))] ∧
    q !! "user_ids" = Some ["1,2"] ∧
    q !! "name_case" = Some ["gen"] ∧
    q !! "fields" = Some ["sex,bdate"] ∧
    ∀ k, k ≠ "user_ids" → k ≠ "fields" → k ≠ "name_case" → q !! k = None.
Proof.
  apply (UsersGet_query (Sample.answering Sample.body_user) tt
           (Some ["1"; "2"]) (Some ["sex"; "bdate"]) "gen").
  - vm_compute. lia.
  - reflexivity.
Defined.

Lemma UsersGet_closes_body_witness :
  ∃ tr, trace (UsersGet (Sample.answering Sample.body_html) tt (Some ["1"]) None "nom")
          = (tr ++ [BodyClose])%list ∧
        Forall (λ e, e ≠ BodyClose) tr.
Proof.
  apply (UsersGet_closes_body (Sample.answering Sample.body_html) tt (Some ["1"]) None
           "nom" {| StatusCode := 200; Body := (Sample.body_html, None) |}).
  - vm_compute. lia.
  - reflexivity.
  - reflexivity.
Defined.

Lemma UsersGet_result_from_body_witness :
  result (UsersGet (Sample.answering Sample.body_user) tt (Some ["1"]) None "nom")
  = result (UsersGet (Sample2.broken_answer Sample.body_user) tt
              (Some ["7"; "8"]) (Some ["sex"]) "dat").
Proof.
  apply (UsersGet_result_from_body
           (Sample.answering Sample.body_user) (Sample2.broken_answer Sample.body_user)
           tt tt (Some ["1"]) (Some ["7"; "8"]) None (Some ["sex"]) "nom" "dat"
           {| StatusCode := 200; Body := (Sample.body_user, None) |}
           {| StatusCode := 502;
              Body := (Sample.body_user, Some (foreign_error "unexpected EOF")) |}).
  - vm_compute. lia.
  - reflexivity.
  - vm_compute. lia.
  - reflexivity.
  - reflexivity.
  - reflexivity.
  - reflexivity.
Defined.

Lemma UsersGet_nil_error_inv_witness :
  len (Some ["1"] : slice string) ≠ 0 ∧ "nom" ∈ NameCases ∧
  ∃ resp response,
    exchange (Sample.answering Sample.body_user) (Some ["1"]) None "nom" = inl resp ∧
    json_Unmarshal (fst (Body resp)) Response_zero = (response, None) ∧
    Error response = None ∧ Response_ response = Some [Sample.ivan].
Proof.
  apply (UsersGet_nil_error_inv (Sample.answering Sample.body_user) tt (Some ["1"]) None
           "nom" (Some [Sample.ivan])).
  vm_compute. reflexivity.
Defined.

Lemma UsersGet_list_inv_witness :
  ∃ resp response,
    exchange (Sample.answering Sample.body_partial) (Some ["1"]) None "nom" = inl resp ∧
    json_Unmarshal (fst (Body resp)) Response_zero = (response, None) ∧
    Response_ response = Some [Sample.ivan] ∧
    Some (vkError_ptr Sample.invalid_user_id) = vkError_ptr <$> Error response.
Proof.
  apply (UsersGet_list_inv (Sample.answering Sample.body_partial) tt (Some ["1"]) None
           "nom" [Sample.ivan] (Some (vkError_ptr Sample.invalid_user_id))).
  vm_compute. reflexivity.
Defined.

Lemma GetUserByIntID_bad_nameCase_witness :
  GetUserByIntID (Sample.answering Sample.body_user) tt 1 "" None
  = ([], Returns (UserInfo_zero,
                  Some (errors_New
                    "the only available name cases are: nom, gen, dat, acc, ins, abl"))).
Proof.
  apply (GetUserByIntID_bad_nameCase (Sample.answering Sample.body_user) tt 1 "" None).
  intros Hin%ElemInSlice_elem_of. vm_compute in Hin. discriminate.
Defined.

Lemma addToken_frame_witness :
  let h' := set_held 0%nat false
              (set_tokens 2%nat (<["app" := Sample.token "t"]> (tokens_at Sample.heap0 2%nat))
                 (set_held 0%nat true Sample.heap0)) in
  secret_maps h' = secret_maps Sample.heap0 ∧
  (∀ l', held h' l' = held Sample.heap0 l') ∧
  (∀ m', tokens Sample.pull ≠ Some m' → tokens_at h' m' = tokens_at Sample.heap0 m') ∧
  (∀ m' appID', appID' ≠ "app" →
     tokens_at h' m' !! appID' = tokens_at Sample.heap0 m' !! appID').
Proof.
  apply (addToken_frame Sample.pull "app" (Sample.token "t") Sample.heap0).
  reflexivity.
Defined.

Lemma addToken_locker_leak_witness :
  ∃ h1, addToken Sample.pull_no_map "app" (Sample.token "t") Sample.heap0
          = Panic nil_map_write h1 ∧
        held h1 0%nat = true ∧
        addToken Sample.pull "app2" (Sample.token "t2") h1 = Waits h1.
Proof.
  apply (addToken_locker_leak Sample.pull_no_map Sample.pull "app" (Sample.token "t")
           "app2" (Sample.token "t2") Sample.heap0 0%nat); reflexivity.
Defined.

Lemma addToken_commutes_witness :
  (addToken Sample.pull "app1" (Sample.token "t1");;
   addToken Sample.pull "app2" (Sample.token "t2")) Sample.heap0
  = (addToken Sample.pull "app2" (Sample.token "t2");;
     addToken Sample.pull "app1" (Sample.token "t1")) Sample.heap0.
Proof.
  apply (addToken_commutes Sample.pull "app1" (Sample.token "t1")
           "app2" (Sample.token "t2") Sample.heap0).
  discriminate.
Defined.

(** A whole run of the two sample callers: the first one locks, assigns
    and unlocks, then the second one does. *)
Lemma sample_whole_run : reachable Sample.pull Sample.two_callers Sample2.both_returned.
Proof.
  do 3 (eapply reachable_first;
        [eapply (sched_run Sample.pull _ 0%nat); [reflexivity | discriminate | reflexivity]|];
        simpl).
  do 3 (eapply reachable_first;
        [eapply (sched_run Sample.pull _ 1%nat); [reflexivity | discriminate | reflexivity]|];
        simpl).
  match goal with
  | |- reachable _ ?c ?c' => assert (c = c') as -> by (vm_compute; reflexivity)
  end.
  apply reachable_start.
Qed.

Lemma sample_starting : starting Sample.pull Sample.two_callers.
Proof. split; [exists 0%nat; by split | repeat constructor]. Qed.

Lemma addToken_goroutines_never_panic_witness :
  statement Sample.pull
    {| g_appID := "app"; g_token := Sample.token "second"; g_pc := AtLock |}
    (set_held 0%nat true Sample.heap0) ≠ Panic nil_dereference Sample.heap0.
Proof.
  apply (addToken_goroutines_never_panic Sample.pull Sample.two_callers
           {| c_heap := set_held 0%nat true Sample.heap0;
              c_goroutines :=
                [ {| g_appID := "app"; g_token := Sample.token "first"; g_pc := AtAssign |};
                  {| g_appID := "app"; g_token := Sample.token "second"; g_pc := AtLock |} ] |}
           1%nat _ nil_dereference Sample.heap0).
  - exact sample_starting.
  - by eexists.
  - exact (proj1 sample_first_caller_inside).
  - reflexivity.
Defined.

Lemma addToken_goroutines_progress_witness :
  ∃ c', sched Sample.pull
          {| c_heap := set_held 0%nat true Sample.heap0;
             c_goroutines :=
               [ {| g_appID := "app"; g_token := Sample.token "first"; g_pc := AtAssign |};
                 {| g_appID := "app"; g_token := Sample.token "second"; g_pc := AtLock |} ] |}
          c'.
Proof.
  apply (addToken_goroutines_progress Sample.pull Sample.two_callers).
  - exact sample_starting.
  - by eexists.
  - exact (proj1 sample_first_caller_inside).
  - intros Hall. apply Forall_cons in Hall as [Hpc _]. discriminate Hpc.
Defined.

Lemma addToken_goroutines_final_witness :
  held (c_heap Sample2.both_returned) 0%nat = false ∧
  ∀ appID,
    (∃ token, (appID, token) ∈ registrations_of Sample.two_callers ∧
              tokens_at (c_heap Sample2.both_returned) 2%nat !! appID = Some token) ∨
    ((appID ∉ (registrations_of Sample.two_callers).*1) ∧
     tokens_at (c_heap Sample2.both_returned) 2%nat !! appID
       = tokens_at (c_heap Sample.two_callers) 2%nat !! appID).
Proof.
  apply (addToken_goroutines_final Sample.pull 0%nat 2%nat Sample.two_callers
           Sample2.both_returned).
  - reflexivity.
  - reflexivity.
  - exact sample_starting.
  - exact sample_whole_run.
  - repeat constructor.
Defined.
